(** * Synchronisation protocol of the Excalidraw canvas server and client

    A shallow embedding of the element store, the connection registry,
    the REST handlers of [server.ts] and the client-side reconciler of
    [ExcalidrawClient.tsx], followed by the properties of the
    synchronisation protocol that hold (or fail) on that code.

    Conventions of the model:
    - a JavaScript value is a [value]; numbers are the integers a JSON
      payload carries exactly (no handler computes with a coordinate, and
      the only arithmetic is the [+ 1] on version counters);
    - an object is a finite map from property names to values; it is only
      ever observed through property reads, so property order is not kept;
    - a JavaScript [Map] is an association list in insertion order, which
      is the order [Array.from(map.values())] returns;
    - [new Date().toISOString()] and [generateId()] read from two oracles
      of the environment; the world counts how often each was read. *)

From stdpp Require Import gmap strings list fin_maps pretty.
From Stdlib Require Import ZArith.

Set Warnings "-register-all".

(* ===================================================================== *)
(** * Part I: the model                                                    *)
(* ===================================================================== *)

(** ** JavaScript values *)

Module JS.

Inductive value :=
| VUndef
| VNull
| VBool (b : bool)
| VNum (n : Z)
| VStr (s : string)
| VArr (items : list value)
| VObj (fields : gmap string value).

(** ToBoolean: [undefined], [null], [false], [0] and [""] are falsy. *)
Definition truthy (v : value) : bool :=
  match v with
  | VUndef | VNull => false
  | VBool b => b
  | VNum n => negb (n =? 0)%Z
  | VStr s => negb (String.eqb s "")
  | VArr _ | VObj _ => true
  end.

(** [a || b] *)
Definition or_else (a b : value) : value := if truthy a then a else b.

(** Reading a property of, or destructuring, these two throws a TypeError. *)
Definition nullish (v : value) : bool :=
  match v with VUndef | VNull => true | _ => false end.

Definition isArray (v : value) : bool :=
  match v with VArr _ => true | _ => false end.

(** [typeof v === 'object'] *)
Definition typeof_object (v : value) : bool :=
  match v with VNull | VArr _ | VObj _ => true | _ => false end.

(** The index properties ["0"], ["1"], ... of an array or of the
    characters of a string. *)
Definition index_props (items : list value) : gmap string value :=
  list_to_map (imap (λ i v, (pretty i, v)) items).

Definition chars (s : string) : list value :=
  (λ c, VStr (String c EmptyString)) <$> String.list_ascii_of_string s.

(** The own enumerable properties, which is what [{...v}] copies.
    Spreading [null], [undefined], a number or a boolean copies nothing. *)
Definition own_props (v : value) : gmap string value :=
  match v with
  | VObj m => m
  | VArr l => index_props l
  | VStr s => index_props (chars s)
  | _ => ∅
  end.

(** [v[k]] for a [v] that is not nullish.  Members inherited from a
    prototype are functions; the program never compares one with data
    it could equal, and they read here as [undefined]. *)
Definition prop (v : value) (k : string) : value :=
  match v with
  | VObj m => default VUndef (m !! k)
  | VArr l =>
      if String.eqb k "length" then VNum (Z.of_nat (length l))
      else default VUndef (index_props l !! k)
  | VStr s =>
      if String.eqb k "length" then VNum (Z.of_nat (String.length s))
      else default VUndef (index_props (chars s) !! k)
  | _ => VUndef
  end.

(** [{...target, ...source}]: later properties win. *)
Definition assign (target source : gmap string value) : gmap string value :=
  source ∪ target.

(** SameValueZero, the key equality of [Map] and of [Array.includes],
    and [===] (they differ on NaN only, which JSON cannot carry).
    Primitives compare by value.  Arrays and objects compare by
    reference: every one met here is a node of a freshly parsed JSON
    tree, and no two of those are the same reference. *)
Definition same_value_zero (a b : value) : bool :=
  match a, b with
  | VUndef, VUndef | VNull, VNull => true
  | VBool x, VBool y => bool_decide (x = y)
  | VNum x, VNum y => (x =? y)%Z
  | VStr x, VStr y => String.eqb x y
  | _, _ => false
  end.

Definition join (sep : string) (parts : list string) : string :=
  match parts with
  | [] => ""
  | p :: ps => foldl (λ acc q, acc +:+ sep +:+ q) p ps
  end.

(** ToString, as string concatenation applies it. *)
Fixpoint to_string (v : value) : string :=
  match v with
  | VUndef => "undefined"
  | VNull => "null"
  | VBool b => if b then "true" else "false"
  | VNum n => pretty n
  | VStr s => s
  | VArr l =>
      join "," (map (λ x, if nullish x then "" else to_string x) l)
  | VObj _ => "[object Object]"
  end.

(** [(v || 0) + 1]: numeric addition on numbers and booleans, string
    concatenation as soon as the left operand converts to a string. *)
Definition or_zero_plus_one (v : value) : value :=
  match or_else v (VNum 0) with
  | VNum n => VNum (n + 1)
  | VBool b => VNum (if b then 2 else 1)
  | VUndef | VNull => VNum 1
  | (VStr _ | VArr _ | VObj _) as s => VStr (to_string s +:+ "1")
  end.

End JS.

Export JS.

Abbreviation obj := (gmap string value).

(** A JavaScript [Map]: entries in insertion order; [set] on a key that is
    present replaces the value in place. *)
Module JSMap.

Definition t (A : Type) : Type := list (value * A).

Fixpoint get {A} (k : value) (m : t A) : option A :=
  match m with
  | [] => None
  | (k', a) :: rest => if same_value_zero k' k then Some a else get k rest
  end.

Fixpoint set {A} (k : value) (a : A) (m : t A) : t A :=
  match m with
  | [] => [(k, a)]
  | (k', a') :: rest =>
      if same_value_zero k' k then (k', a) :: rest
      else (k', a') :: set k a rest
  end.

(** [delete] returns whether an entry was removed. *)
Fixpoint delete {A} (k : value) (m : t A) : bool * t A :=
  match m with
  | [] => (false, [])
  | (k', a') :: rest =>
      if same_value_zero k' k then (true, rest)
      else let '(found, rest') := delete k rest in (found, (k', a') :: rest')
  end.

Definition values {A} (m : t A) : list A := snd <$> m.
Definition keys {A} (m : t A) : list value := fst <$> m.
Definition size {A} (m : t A) : nat := length m.

(** [new Map(pairs)] *)
Definition of_pairs {A} (pairs : list (value * A)) : t A :=
  foldl (λ m '(k, a), set k a m) [] pairs.

End JSMap.

(** ** The request-schema validator (zod) *)

Module Zod.

Inductive schema :=
| z_string
| z_number
| z_boolean
| z_enum (values : list string)
| z_array (item : schema)
| z_object (shape : list (string * schema))
| z_optional (inner : schema).

(** [schema.parse(v)]: [None] when a ZodError is thrown.  An object
    schema keeps the keys of its shape only (unknown keys are stripped)
    and sets a key when its value is defined or the key is in the
    input. *)
Fixpoint parse (s : schema) (v : value) {struct s} : option value :=
  match s with
  | z_string => match v with VStr _ => Some v | _ => None end
  | z_number => match v with VNum _ => Some v | _ => None end
  | z_boolean => match v with VBool _ => Some v | _ => None end
  | z_enum values =>
      match v with
      | VStr x => if bool_decide (x ∈ values) then Some v else None
      | _ => None
      end
  | z_array item =>
      match v with
      | VArr l => VArr <$> mapM (parse item) l
      | _ => None
      end
  | z_object shape =>
      match v with
      | VObj m =>
          VObj <$>
            (fix fields (sh : list (string * schema)) : option obj :=
               match sh with
               | [] => Some ∅
               | (k, sk) :: rest =>
                   match parse sk (default VUndef (m !! k)), fields rest with
                   | Some r, Some acc =>
                       Some (match r, m !! k with
                             | VUndef, None => acc
                             | _, _ => <[k := r]> acc
                             end)
                   | _, _ => None
                   end
               end) shape
      | _ => None
      end
  | z_optional inner =>
      match v with
      | VUndef => Some VUndef
      | _ => parse inner v
      end
  end.

(** The result of parsing with an object schema, as an object. *)
Definition parse_object (s : schema) (v : value) : option obj :=
  match parse s v with
  | Some (VObj m) => Some m
  | _ => None
  end.

End Zod.

(** ** What the code takes from outside [src/] *)

(** The element-type table and the identifier generator of [types.ts], the
    system clock, and the two collaborators of the canvas library. *)
Class External := {
  (** [Object.values(EXCALIDRAW_ELEMENT_TYPES)] *)
  EXCALIDRAW_ELEMENT_TYPES : list string;
  (** the string the n-th call of [generateId()] returns *)
  generateId_nth : nat → string;
  (** the string the n-th [new Date().toISOString()] returns *)
  toISOString_nth : nat → string;
  (** [convertToExcalidrawElements(skeletons, {regenerateIds})] *)
  convertToExcalidrawElements : bool → list obj → list obj;
  (** [convertMermaidToExcalidraw(diagram, config)], the configuration
      absent when the default one is passed: the elements of a successful
      conversion, [None] on a conversion error *)
  convertMermaidToExcalidraw : string → option value → option (list obj);
}.

(** ** Messages of the live channel *)

(** The messages the server broadcasts ([WebSocketMessage] of [types.ts],
    as the handlers build them). *)
Inductive ServerMessage :=
| initial_elements (elements : list obj)
| sync_status (elementCount : nat) (timestamp : string)
| element_created (element : obj)
| element_updated (element : obj)
| element_deleted (elementId : string)
| elements_batch_created (elements : list obj)
| elements_synced (count : nat) (timestamp : string) (source : string)
| mermaid_convert (mermaidDiagram : value) (config : value) (timestamp : string).

(** ** Element store ([stateManager.ts]) *)

Module SingleRoomStateManager.

(** [private elements: Map<string, ServerElement>].  The keys are typed
    [string]; the sync handler, whose elements are typed [any], passes
    whatever the [id] of an element is, so keys are values here.  The
    [roomId] parameters are ignored by this implementation and left out. *)
Abbreviation t := (JSMap.t obj).

Definition no_elements : t := [].
Definition getElements (this : t) : t := this.
Definition getElement (elementId : value) (this : t) : option obj :=
  JSMap.get elementId this.
Definition setElement (elementId : value) (element : obj) (this : t) : t :=
  JSMap.set elementId element this.
Definition deleteElement (elementId : value) (this : t) : bool * t :=
  JSMap.delete elementId this.
Definition clearElements (this : t) : t := [].

End SingleRoomStateManager.

(** ** Connection registry ([clientManager.ts]) *)

Module SingleRoomClientManager.

(** A [WebSocket]: its identity, its [readyState] (0 CONNECTING, 1 OPEN,
    2 CLOSING, 3 CLOSED) and what was sent to it so far, oldest first.
    A message is recorded as built; [JSON.stringify] happens once per
    broadcast and every recipient gets the same text. *)
Record WebSocket := {
  handle : nat;
  readyState : nat;
  sent : list ServerMessage;
}.

Definition send (data : ServerMessage) (ws : WebSocket) : WebSocket :=
  {| handle := handle ws; readyState := readyState ws;
     sent := sent ws ++ [data] |}.

(** [private clients: Set<WebSocket>], in insertion order. *)
Abbreviation t := (list WebSocket).

Definition no_clients : t := [].

Definition same_socket (a b : WebSocket) : bool :=
  bool_decide (handle a = handle b).

Definition addClient (ws : WebSocket) (this : t) : t :=
  if existsb (same_socket ws) this then this else this ++ [ws].

Definition removeClient (ws : WebSocket) (this : t) : t :=
  filter (λ c, handle c ≠ handle ws) this.

Definition getClients (this : t) : t := this.

(** There are no rooms in single-room mode. *)
Definition getRoomForClient (ws : WebSocket) (this : t) : option string := None.

Definition is_excluded (excludeClient : option WebSocket) (client : WebSocket)
  : bool :=
  match excludeClient with
  | Some ex => same_socket client ex
  | None => false
  end.

(** [broadcast(message, _roomId, excludeClient)] *)
Definition broadcast (message : ServerMessage)
    (excludeClient : option WebSocket) (this : t) : t :=
  (λ client,
     if negb (is_excluded excludeClient client)
        && bool_decide (readyState client = 1)
     then send message client
     else client) <$> this.

End SingleRoomClientManager.

Abbreviation WebSocket := SingleRoomClientManager.WebSocket.

(** ** The REST handlers ([server.ts]) *)

Module Server.

Import Zod.

Definition optional_fields `{External} : list (string * schema) :=
  [ ("width", z_optional z_number);
    ("height", z_optional z_number);
    ("backgroundColor", z_optional z_string);
    ("strokeColor", z_optional z_string);
    ("strokeWidth", z_optional z_number);
    ("roughness", z_optional z_number);
    ("opacity", z_optional z_number);
    ("text", z_optional z_string);
    ("label", z_optional (z_object [("text", z_string)]));
    ("fontSize", z_optional z_number);
    ("fontFamily", z_optional z_string);
    ("groupIds", z_optional (z_array z_string));
    ("locked", z_optional z_boolean) ].

Definition CreateElementSchema `{External} : schema :=
  z_object
    ([ ("id", z_optional z_string);
       ("type", z_enum EXCALIDRAW_ELEMENT_TYPES);
       ("x", z_number);
       ("y", z_number) ] ++ optional_fields).

Definition UpdateElementSchema `{External} : schema :=
  z_object
    ([ ("id", z_string);
       ("type", z_optional (z_enum EXCALIDRAW_ELEMENT_TYPES));
       ("x", z_optional z_number);
       ("y", z_optional z_number) ] ++ optional_fields).

(** The process: the two singletons, and how many identifiers and clock
    readings were drawn so far. *)
Record World := {
  stateManager : SingleRoomStateManager.t;
  clientManager : SingleRoomClientManager.t;
  ids_drawn : nat;
  clock_reads : nat;
}.

Definition initial : World :=
  {| stateManager := SingleRoomStateManager.no_elements;
     clientManager := SingleRoomClientManager.no_clients;
     ids_drawn := 0; clock_reads := 0 |}.

Definition with_store (s : SingleRoomStateManager.t) (w : World) : World :=
  {| stateManager := s; clientManager := clientManager w;
     ids_drawn := ids_drawn w; clock_reads := clock_reads w |}.

Definition with_clients (c : SingleRoomClientManager.t) (w : World) : World :=
  {| stateManager := stateManager w; clientManager := c;
     ids_drawn := ids_drawn w; clock_reads := clock_reads w |}.

(** [generateId()] *)
Definition generateId `{External} (w : World) : string * World :=
  (generateId_nth (ids_drawn w),
   {| stateManager := stateManager w; clientManager := clientManager w;
      ids_drawn := S (ids_drawn w); clock_reads := clock_reads w |}).

(** [new Date().toISOString()] *)
Definition now `{External} (w : World) : string * World :=
  (toISOString_nth (clock_reads w),
   {| stateManager := stateManager w; clientManager := clientManager w;
      ids_drawn := ids_drawn w; clock_reads := S (clock_reads w) |}).

(** [stateManager.setElement(id, element)] *)
Definition stateManager_setElement (id : value) (element : obj) (w : World)
  : World :=
  with_store (SingleRoomStateManager.setElement id element (stateManager w)) w.

(** [clientManager.broadcast(message)]: no room, nobody excluded. *)
Definition clientManager_broadcast (message : ServerMessage) (w : World)
  : World :=
  with_clients
    (SingleRoomClientManager.broadcast message None (clientManager w)) w.

(** What a handler answers. *)
Inductive Failure :=
| ZodError
| TypeError
| Message (text : string).

Inductive Response :=
| json_elements (elements : list obj) (count : nat)
| json_element (element : obj)
| json_message (message : string)
| json_sync (count : nat) (syncedAt : string) (beforeCount afterCount : nat)
| json_mermaid (mermaidDiagram config : value)
| json_error (status : nat) (error : Failure).

Definition status_of (r : Response) : nat :=
  match r with
  | json_error status _ => status
  | _ => 200
  end.

(** [{ id, ...params, createdAt, updatedAt, version: 1 }] *)
Definition new_element `{External} (id : value) (params : obj) (w : World)
  : obj * World :=
  let '(createdAt, w) := now w in
  let '(updatedAt, w) := now w in
  (<["version" := VNum 1]>
     (<["updatedAt" := VStr updatedAt]>
        (<["createdAt" := VStr createdAt]>
           (assign {["id" := id]} params))),
   w).

(** [GET /api/elements] *)
Definition get_elements (w : World) : World * Response :=
  let elementsArray := JSMap.values (stateManager w) in
  (w, json_elements elementsArray (length elementsArray)).

(** [POST /api/elements] *)
Definition post_elements `{External} (body : value) (w : World)
  : World * Response :=
  match parse_object CreateElementSchema body with
  | None => (w, json_error 400 ZodError)
  | Some params =>
      let '(id, w) :=
        if truthy (prop (VObj params) "id") then (prop (VObj params) "id", w)
        else let '(fresh, w) := generateId w in (VStr fresh, w) in
      let '(element, w) := new_element id params w in
      let w := stateManager_setElement id element w in
      let w := clientManager_broadcast (element_created element) w in
      (w, json_element element)
  end.

(** [PUT /api/elements/:id] *)
Definition put_elements_id `{External} (id : string) (body : value) (w : World)
  : World * Response :=
  match parse_object UpdateElementSchema
          (VObj (assign {["id" := VStr id]} (own_props body))) with
  | None => (w, json_error 400 ZodError)
  | Some updates =>
      if negb (truthy (VStr id)) then
        (w, json_error 400 (Message "Element ID is required"))
      else
        match SingleRoomStateManager.getElement (VStr id) (stateManager w) with
        | None =>
            (w, json_error 404
                  (Message ("Element with ID " +:+ id +:+ " not found")))
        | Some existingElement =>
            let '(updatedAt, w) := now w in
            let updatedElement :=
              <["version" :=
                  or_zero_plus_one (prop (VObj existingElement) "version")]>
                (<["updatedAt" := VStr updatedAt]>
                   (assign existingElement updates)) in
            let w := stateManager_setElement (VStr id) updatedElement w in
            let w := clientManager_broadcast (element_updated updatedElement) w in
            (w, json_element updatedElement)
        end
  end.

(** [DELETE /api/elements/:id] *)
Definition delete_elements_id (id : string) (w : World) : World * Response :=
  if negb (truthy (VStr id)) then
    (w, json_error 400 (Message "Element ID is required"))
  else
    match SingleRoomStateManager.getElement (VStr id) (stateManager w) with
    | None =>
        (w, json_error 404
              (Message ("Element with ID " +:+ id +:+ " not found")))
    | Some _ =>
        let w :=
          with_store
            (SingleRoomStateManager.deleteElement (VStr id) (stateManager w)).2
            w in
        let w := clientManager_broadcast (element_deleted id) w in
        (w, json_message ("Element " +:+ id +:+ " deleted successfully"))
    end.

(** [GET /api/elements/:id] *)
Definition get_elements_id (id : string) (w : World) : World * Response :=
  if negb (truthy (VStr id)) then
    (w, json_error 400 (Message "Element ID is required"))
  else
    match SingleRoomStateManager.getElement (VStr id) (stateManager w) with
    | None =>
        (w, json_error 404
              (Message ("Element with ID " +:+ id +:+ " not found")))
    | Some element => (w, json_element element)
    end.

(** A value of [req.query]: a string, or the array or nested object the
    query parser builds from a repeated or bracketed parameter. *)
Inductive QueryValue :=
| QString (s : string)
| QNested.

(** [field === value] for a stored field and a query value; a nested
    query value is a reference of its own and equals nothing. *)
Definition strict_equals_query (field : value) (q : QueryValue) : bool :=
  match q, field with
  | QString s, VStr s' => String.eqb s' s
  | _, _ => false
  end.

(** [GET /api/elements/search] *)
Definition get_elements_search (query : gmap string QueryValue) (w : World)
  : World * Response :=
  let type := query !! "type" in
  let filters := delete "type" query in
  let results := JSMap.values (stateManager w) in
  let results :=
    match type with
    | Some (QString type) =>
        if truthy (VStr type) then
          filter (λ element : obj,
                    strict_equals_query (prop (VObj element) "type")
                      (QString type) = true) results
        else results
    | _ => results
    end in
  let results :=
    if bool_decide (0 < length (map_to_list filters)) then
      filter (λ element : obj,
                forallb (λ '(key, value),
                           strict_equals_query (prop (VObj element) key) value)
                  (map_to_list filters) = true) results
    else results in
  (w, json_elements results (length results)).

(** The [forEach] of the batch handler.  A ZodError leaves the loop;
    the second component is then [None], and the world is the one the
    earlier iterations left. *)
Fixpoint batch_forEach `{External} (elementsToCreate : list value)
    (createdElements : list obj) (w : World) : World * option (list obj) :=
  match elementsToCreate with
  | [] => (w, Some createdElements)
  | elementData :: rest =>
      match parse_object CreateElementSchema elementData with
      | None => (w, None)
      | Some params =>
          let '(id, w) := generateId w in
          let '(element, w) := new_element (VStr id) params w in
          let w := stateManager_setElement (VStr id) element w in
          batch_forEach rest (createdElements ++ [element]) w
      end
  end.

(** [POST /api/elements/batch] *)
Definition post_elements_batch `{External} (body : value) (w : World)
  : World * Response :=
  if nullish body then (w, json_error 400 TypeError)
  else
    match prop body "elements" with
    | VArr elementsToCreate =>
        match batch_forEach elementsToCreate [] w with
        | (w, None) => (w, json_error 400 ZodError)
        | (w, Some createdElements) =>
            let w := clientManager_broadcast (elements_batch_created createdElements) w in
            (w, json_elements createdElements (length createdElements))
        end
    | _ => (w, json_error 400 (Message "Expected an array of elements"))
    end.

(** [POST /api/elements/from-mermaid] *)
Definition post_elements_from_mermaid `{External} (body : value) (w : World)
  : World * Response :=
  if nullish body then (w, json_error 400 TypeError)
  else
    let mermaidDiagram := prop body "mermaidDiagram" in
    let config := prop body "config" in
    match mermaidDiagram with
    | VStr text =>
        if truthy mermaidDiagram then
          let '(timestamp, w) := now w in
          let w :=
            clientManager_broadcast
              (mermaid_convert mermaidDiagram (or_else config (VObj ∅))
                 timestamp) w in
          (w, json_mermaid mermaidDiagram (or_else config (VObj ∅)))
        else
          (w, json_error 400
                (Message "Mermaid diagram definition is required"))
    | _ =>
        (w, json_error 400 (Message "Mermaid diagram definition is required"))
    end.

(** One iteration of the [forEach] of the sync handler, with its own
    [try]/[catch]: reading [element.id] of [null] throws, the entry is
    logged and skipped. *)
Definition sync_element `{External} (timestamp element : value)
    (acc : World * list obj) : World * list obj :=
  let '(w, processedElements) := acc in
  if nullish element then (w, processedElements)
  else
    let '(elementId, w) :=
      if truthy (prop element "id") then (prop element "id", w)
      else let '(fresh, w) := generateId w in (VStr fresh, w) in
    let '(syncedAt, w) := now w in
    let processedElement :=
      <["version" := VNum 1]>
        (<["syncTimestamp" := timestamp]>
           (<["source" := VStr "frontend_sync"]>
              (<["syncedAt" := VStr syncedAt]>
                 (<["id" := elementId]> (own_props element))))) in
    let w := stateManager_setElement elementId processedElement w in
    (w, processedElements ++ [processedElement]).

Definition sync_forEach `{External} (timestamp : value)
    (frontendElements : list value) (w : World) : World * list obj :=
  foldl (λ acc element, sync_element timestamp element acc)
    (w, []) frontendElements.

(** [POST /api/elements/sync].  The first log line reads
    [frontendElements.length] before the array check. *)
Definition post_elements_sync `{External} (body : value) (w : World)
  : World * Response :=
  if nullish body then (w, json_error 500 TypeError)
  else
    let frontendElements := prop body "elements" in
    let timestamp := prop body "timestamp" in
    if nullish frontendElements then (w, json_error 500 TypeError)
    else
      match frontendElements with
      | VArr frontendElements =>
          let beforeCount := JSMap.size (stateManager w) in
          let w :=
            with_store
              (SingleRoomStateManager.clearElements (stateManager w)) w in
          let '(w, processedElements) :=
            sync_forEach timestamp frontendElements w in
          let successCount := length processedElements in
          let '(broadcastAt, w) := now w in
          let w :=
            clientManager_broadcast
              (elements_synced successCount broadcastAt "manual_sync") w in
          let '(syncedAt, w) := now w in
          (w, json_sync successCount syncedAt beforeCount
                (JSMap.size (stateManager w)))
      | _ =>
          (w, json_error 400 (Message "Expected elements to be an array"))
      end.

(** The requests of the REST interface that read or write the store or
    broadcast ([/health] and [/api/sync/status] only report sizes). *)
Inductive Request :=
| GET_elements
| POST_elements (body : value)
| PUT_elements_id (id : string) (body : value)
| DELETE_elements_id (id : string)
| GET_elements_search (query : gmap string QueryValue)
| GET_elements_id (id : string)
| POST_elements_batch (body : value)
| POST_elements_from_mermaid (body : value)
| POST_elements_sync (body : value).

Definition handle `{External} (req : Request) (w : World) : World * Response :=
  match req with
  | GET_elements => get_elements w
  | POST_elements body => post_elements body w
  | PUT_elements_id id body => put_elements_id id body w
  | DELETE_elements_id id => delete_elements_id id w
  | GET_elements_search query => get_elements_search query w
  | GET_elements_id id => get_elements_id id w
  | POST_elements_batch body => post_elements_batch body w
  | POST_elements_from_mermaid body => post_elements_from_mermaid body w
  | POST_elements_sync body => post_elements_sync body w
  end.

(** The live channel: [wss.on('connection')], the [close] and [error]
    callbacks, and a socket changing its [readyState] by itself. *)
Definition send_to (h : nat) (data : ServerMessage)
    (clients : SingleRoomClientManager.t) : SingleRoomClientManager.t :=
  (λ c, if bool_decide (SingleRoomClientManager.handle c = h)
        then SingleRoomClientManager.send data c else c) <$> clients.

Definition on_connection `{External} (h : nat) (w : World) : World :=
  let ws :=
    {| SingleRoomClientManager.handle := h;
       SingleRoomClientManager.readyState := 1;
       SingleRoomClientManager.sent := [] |} in
  let w :=
    with_clients (SingleRoomClientManager.addClient ws (clientManager w)) w in
  let w :=
    with_clients
      (send_to h (initial_elements (JSMap.values (stateManager w)))
         (clientManager w)) w in
  let '(timestamp, w) := now w in
  with_clients
    (send_to h (sync_status (JSMap.size (stateManager w)) timestamp)
       (clientManager w)) w.

Definition on_close (h : nat) (w : World) : World :=
  with_clients
    (SingleRoomClientManager.removeClient
       {| SingleRoomClientManager.handle := h;
          SingleRoomClientManager.readyState := 3;
          SingleRoomClientManager.sent := [] |} (clientManager w)) w.

Definition on_ready_state (h state : nat) (w : World) : World :=
  with_clients
    ((λ c, if bool_decide (SingleRoomClientManager.handle c = h)
           then {| SingleRoomClientManager.handle := h;
                   SingleRoomClientManager.readyState := state;
                   SingleRoomClientManager.sent :=
                     SingleRoomClientManager.sent c |}
           else c) <$> clientManager w) w.

Inductive Event :=
| request (req : Request)
| connection (h : nat)
| closed (h : nat)
| ready_state (h state : nat).

Definition step `{External} (e : Event) (w : World) : World :=
  match e with
  | request req => (handle req w).1
  | connection h => on_connection h w
  | closed h => on_close h w
  | ready_state h state => on_ready_state h state w
  end.

(** The worlds the process can be in: [initial] at start, then one
    event handled to completion after the other. *)
Inductive reachable `{External} : World → Prop :=
| reachable_initial : reachable initial
| reachable_step e w : reachable w → reachable (step e w).

End Server.

(** ** The client-side reconciler ([ExcalidrawClient.tsx]) *)

Module Client.

(** [interface WebSocketMessage], the fields the reconciler reads. *)
Record WebSocketMessage := {
  type : string;
  element : option obj;
  elements : option (list obj);
  elementId : option string;
  mermaidDiagram : option string;
  config : option value;
}.

(** The destructuring that leaves the server-only fields out. *)
Definition cleanElementForExcalidraw (element : obj) : obj :=
  delete "syncTimestamp"
    (delete "source"
       (delete "syncedAt"
          (delete "version"
             (delete "updatedAt"
                (delete "createdAt" element))))).

(** [array.includes(v)] *)
Definition includes (array : list value) (v : value) : bool :=
  existsb (λ x, same_value_zero x v) array.

(** The callback of [boundElements.filter]. *)
Definition keep_binding (elementMap : JSMap.t obj) (binding : value) : bool :=
  if negb (truthy binding) || negb (typeof_object binding) then false
  else if negb (truthy (prop binding "id"))
          || negb (truthy (prop binding "type")) then false
  else if negb (bool_decide (is_Some (JSMap.get (prop binding "id") elementMap)))
  then false
  else if negb (includes [VStr "text"; VStr "arrow"] (prop binding "type"))
  then false
  else true.

(** The callback of [elements.map] in [validateAndFixBindings]. *)
Definition fix_bindings_of (elementMap : JSMap.t obj) (element : obj) : obj :=
  let fixedElement := element in
  let fixedElement :=
    if truthy (prop (VObj fixedElement) "boundElements") then
      match prop (VObj fixedElement) "boundElements" with
      | VArr bindings =>
          let kept :=
            filter (λ b, keep_binding elementMap b = true) bindings in
          if bool_decide (length kept = 0)
          then <["boundElements" := VNull]> fixedElement
          else <["boundElements" := VArr kept]> fixedElement
      | _ => <["boundElements" := VNull]> fixedElement
      end
    else fixedElement in
  if truthy (prop (VObj fixedElement) "containerId") then
    match JSMap.get (prop (VObj fixedElement) "containerId") elementMap with
    | None => <["containerId" := VNull]> fixedElement
    | Some _ => fixedElement
    end
  else fixedElement.

Definition validateAndFixBindings (elements : list obj) : list obj :=
  let elementMap :=
    JSMap.of_pairs ((λ el : obj, (prop (VObj el) "id", el)) <$> elements) in
  fix_bindings_of elementMap <$> elements.

(** [handleWebSocketMessage], as a function of the scene: the argument
    is what [getSceneElements()] returns and the result what the scene
    holds afterwards ([updateScene] replaces it; a branch that throws is
    caught and leaves it as it was).  The handler returns at once as long
    as the canvas API is not there; this is the handler once it is.  The
    outbound sync that follows a diagram conversion is a network call and
    not part of the scene. *)
Definition handleWebSocketMessage `{External} (data : WebSocketMessage)
    (currentElements : list value) : list value :=
  if String.eqb (type data) "initial_elements" then
    match elements data with
    | Some ((_ :: _) as els) =>
        let cleanedElements := cleanElementForExcalidraw <$> els in
        let validatedElements := validateAndFixBindings cleanedElements in
        VObj <$> validatedElements
    | _ => currentElements
    end
  else if String.eqb (type data) "element_created" then
    match element data with
    | Some el =>
        let cleanedNewElement := cleanElementForExcalidraw el in
        let newElement :=
          convertToExcalidrawElements true [cleanedNewElement] in
        currentElements ++ (VObj <$> newElement)
    | None => currentElements
    end
  else if String.eqb (type data) "element_updated" then
    match element data with
    | Some el =>
        let cleanedUpdatedElement := cleanElementForExcalidraw el in
        let convertedUpdatedElement :=
          default VUndef
            (head (VObj <$> convertToExcalidrawElements true
                              [cleanedUpdatedElement])) in
        if existsb nullish currentElements then currentElements
        else
          (λ e, if same_value_zero (prop e "id") (prop (VObj el) "id")
                then convertedUpdatedElement else e) <$> currentElements
    | None => currentElements
    end
  else if String.eqb (type data) "element_deleted" then
    match elementId data with
    | Some id =>
        if negb (truthy (VStr id)) then currentElements
        else if existsb nullish currentElements then currentElements
        else
          filter (λ e, same_value_zero (prop e "id") (VStr id) = false)
            currentElements
    | None => currentElements
    end
  else if String.eqb (type data) "elements_batch_created" then
    match elements data with
    | Some els =>
        let cleanedBatchElements := cleanElementForExcalidraw <$> els in
        let batchElements :=
          convertToExcalidrawElements true cleanedBatchElements in
        currentElements ++ (VObj <$> batchElements)
    | None => currentElements
    end
  else if String.eqb (type data) "elements_synced" then currentElements
  else if String.eqb (type data) "sync_status" then currentElements
  else if String.eqb (type data) "mermaid_convert" then
    match mermaidDiagram data with
    | Some diagram =>
        if negb (truthy (VStr diagram)) then currentElements
        else
          let config :=
            match config data with
            | Some c => if truthy c then Some c else None
            | None => None
            end in
          match convertMermaidToExcalidraw diagram config with
          | Some ((_ :: _) as els) =>
              VObj <$> convertToExcalidrawElements false els
          | _ => currentElements
          end
    | None => currentElements
    end
  else currentElements.

End Client.

(** ** A concrete environment, for evaluating the handlers *)

(** Modelled from the spec: [EXCALIDRAW_ELEMENT_TYPES] of [types.ts] is
    not among the sources; these are the nine drawable shapes the data
    model of the specification lists. *)
Definition spec_element_types : list string :=
  [ "rectangle"; "ellipse"; "diamond"; "arrow"; "line"; "text"; "freehand";
    "image"; "frame" ].

(** Identifiers ["id-0"], ["id-1"], ..., clock readings ["t0"], ["t1"], ...,
    and, where a handler of the client is evaluated, stand-ins for the two
    functions of the canvas library, which are not among the sources: a
    converter that hands its skeletons back and a diagram conversion that
    yields nothing.  No property rests on what these two return. *)
Definition sample_external : External :=
  {| EXCALIDRAW_ELEMENT_TYPES := spec_element_types;
     generateId_nth n := "id-" +:+ pretty n;
     toISOString_nth n := "t" +:+ pretty n;
     convertToExcalidrawElements _ skeletons := skeletons;
     convertMermaidToExcalidraw _ _ := None |}.


(** ** The addresses of the client ([ExcalidrawClient.tsx]) *)

Module ClientUrl.

(** What is left of [s] after [prefix], when [s] starts with it. *)
Fixpoint after_prefix (prefix s : string) : option string :=
  match prefix with
  | EmptyString => Some s
  | String a prefix' =>
      match s with
      | String b s' => if Ascii.eqb a b then after_prefix prefix' s' else None
      | EmptyString => None
      end
  end.

(** [s.startsWith(prefix)] *)
Definition startsWith (s prefix : string) : bool :=
  bool_decide (is_Some (after_prefix prefix s)).

(** [s.replace(/^https?:/, replacement)], for a replacement without [$]:
    the pattern matches ["https:"] or ["http:"] at the start of the
    string, and nowhere else. *)
Definition replace_scheme (s replacement : string) : string :=
  match after_prefix "https:" s with
  | Some rest => replacement +:+ rest
  | None =>
      match after_prefix "http:" s with
      | Some rest => replacement +:+ rest
      | None => s
      end
  end.

(** [props.serverUrl || window.location.origin], the origin being [''] where
    there is no window. *)
Definition baseUrl (serverUrl : option string) (origin : string) : string :=
  match serverUrl with
  | Some url => if truthy (VStr url) then url else origin
  | None => origin
  end.

(** [props.roomId ? `/${props.roomId}` : ''] *)
Definition roomIdPath (roomId : option string) : string :=
  match roomId with
  | Some room => if truthy (VStr room) then "/" +:+ room else ""
  | None => ""
  end.

(** The address [connectWebSocket] opens the socket at. *)
Definition wsUrl (baseUrl : string) (roomId : option string) : string :=
  let protocol := if startsWith baseUrl "https" then "wss:" else "ws:" in
  let wsBaseUrl := replace_scheme baseUrl protocol in
  wsBaseUrl +:+ roomIdPath roomId.

End ClientUrl.
(* ===================================================================== *)
(** * Part II: vocabulary of the properties                                *)
(* ===================================================================== *)

Import Server.

(** ** Broadcast fan-out *)

(** The connections of a registry whose [readyState] is OPEN. *)
Definition open_connections (clients : list WebSocket) : nat :=
  length (filter (λ c, SingleRoomClientManager.readyState c = 1) clients).

(** [received message c c']: the connection [c] became [c'] by being sent
    [message] and nothing else. *)
Definition received (message : ServerMessage) (c c' : WebSocket) : Prop :=
  SingleRoomClientManager.handle c' = SingleRoomClientManager.handle c
  ∧ SingleRoomClientManager.sent c' = SingleRoomClientManager.sent c ++ [message].

(** How many messages were sent between two states of a registry,
    connection by connection. *)
Definition deliveries (before after : list WebSocket) : nat :=
  sum_list
    (zip_with
       (λ c c', length (SingleRoomClientManager.sent c')
                - length (SingleRoomClientManager.sent c))
       before after).

(** A world with a single connection, in the given [readyState]. *)
Definition one_connection (state : nat) : World :=
  {| stateManager := [];
     clientManager :=
       [ {| SingleRoomClientManager.handle := 7;
            SingleRoomClientManager.readyState := state;
            SingleRoomClientManager.sent := [] |} ];
     ids_drawn := 0; clock_reads := 0 |}.

Definition a_rectangle : value :=
  VObj {[ "type" := VStr "rectangle"; "x" := VNum 10; "y" := VNum 10;
          "width" := VNum 50; "height" := VNum 30 ]}.


(** ** Runs *)

(** The run of a list of requests from a world: the final world and the
    status codes answered, in order. *)
Definition run `{External} (requests : list Request) (w : World)
  : World * list nat :=
  foldl (λ '(w, statuses) req,
           let result := handle req w in
           (result.1, statuses ++ [status_of result.2]))
    (w, []) requests.

(** ** Batch creation *)

Definition a_valid_then_an_invalid_entry : value :=
  VObj {[ "elements" :=
            VArr [ VObj {[ "type" := VStr "rectangle";
                           "x" := VNum 0; "y" := VNum 0 ]};
                   VObj {[ "type" := VStr "bogus";
                           "x" := VNum 0; "y" := VNum 0 ]} ] ]}.

(** ** Schema validation *)

(** The loop over the shape that [Zod.parse] runs for an object schema,
    under a name of its own. *)
Fixpoint object_fields (m : obj) (shape : list (string * Zod.schema))
  : option obj :=
  match shape with
  | [] => Some ∅
  | (k, sk) :: rest =>
      match Zod.parse sk (default VUndef (m !! k)), object_fields m rest with
      | Some r, Some acc =>
          Some (match r, m !! k with
                | VUndef, None => acc
                | _, _ => <[k := r]> acc
                end)
      | _, _ => None
      end
  end.

(** The schema a shape gives for a key. *)
Fixpoint shape_lookup (shape : list (string * Zod.schema)) (k : string)
  : option Zod.schema :=
  match shape with
  | [] => None
  | (k', sk) :: rest =>
      if String.eqb k' k then Some sk else shape_lookup rest k
  end.

(** ** Created and stored records *)

(** The keys of [CreateElementSchema]. *)
Definition creation_fields : list string :=
  [ "id"; "type"; "x"; "y"; "width"; "height"; "backgroundColor";
    "strokeColor"; "strokeWidth"; "roughness"; "opacity"; "text"; "label";
    "fontSize"; "fontFamily"; "groupIds"; "locked" ].

(** The fields creation assigns. *)
Definition server_fields : list string :=
  [ "createdAt"; "updatedAt"; "version" ].

(** A record as creation makes it: no field besides those of the schema
    and the three the server assigns. *)
Definition only_creation_fields (element : obj) : Prop :=
  (∀ k, is_Some (element !! k) → k ∈ creation_fields ∨ k ∈ server_fields)
  ∧ element !! "version" = Some (VNum 1)
  ∧ (∃ t, element !! "createdAt" = Some (VStr t))
  ∧ (∃ t, element !! "updatedAt" = Some (VStr t)).


(** The values that a [Map] compares by value. *)
Definition primitive (v : value) : Prop :=
  match v with VArr _ | VObj _ => False | _ => True end.

(** The store after the pairs of an identifier and a record were set, in order. *)
Definition stored (entries : list (value * obj)) (store : JSMap.t obj)
  : JSMap.t obj :=
  foldl (λ m '(id, element), JSMap.set id element m) store entries.

(** [created_from e (id, el)]: the batch loop made the record [el] of the
    entry [e] and set it under the generated identifier [id]. *)
Definition created_from `{External} (e : value) (entry : value * obj) : Prop :=
  ∃ params n w0,
    Zod.parse_object CreateElementSchema e = Some params
    ∧ entry.1 = VStr (generateId_nth n)
    ∧ entry.2 = (new_element entry.1 params w0).1.

(** [created_record e key reads element]: [element] is the record that
    creation makes of the body or batch entry [e] for the identifier
    [key] when the clock was read [reads] times: the fields of the parsed
    entry, [id] being the identifier where the entry has none, then the
    next two clock readings and version 1. *)
Definition created_record `{External} (e : value) (key : value) (reads : nat)
    (element : obj) : Prop :=
  ∃ params,
    Zod.parse_object CreateElementSchema e = Some params
    ∧ (∀ k, k ∉ server_fields → k ≠ "id" → element !! k = params !! k)
    ∧ element !! "id" = Some (default key (params !! "id"))
    ∧ element !! "createdAt" = Some (VStr (toISOString_nth reads))
    ∧ element !! "updatedAt" = Some (VStr (toISOString_nth (S reads)))
    ∧ element !! "version" = Some (VNum 1).

(** [batch_records drawn reads entries pairs]: the batch loop, entered
    after [drawn] identifiers were drawn and the clock was read [reads]
    times, made one pair of a generated identifier and a record of every
    entry, in order. *)
Fixpoint batch_records `{External} (drawn reads : nat) (entries : list value)
    (pairs : list (value * obj)) : Prop :=
  match entries, pairs with
  | [], [] => True
  | e :: entries, p :: pairs =>
      p.1 = VStr (generateId_nth drawn)
      ∧ created_record e p.1 reads p.2
      ∧ batch_records (S drawn) (S (S reads)) entries pairs
  | _, _ => False
  end.

(** A body that submits, beside a rectangle, fields the schema does not
    know and the three the server assigns. *)
Definition a_body_with_more_fields : value :=
  VObj {[ "type" := VStr "rectangle"; "x" := VNum 1; "y" := VNum 2;
          "version" := VNum 7; "createdAt" := VStr "1999-01-01";
          "containerId" := VStr "ghost" ]}.

(** The [id] fields of a list of records. *)
Definition ids_of (elements : list obj) : list value :=
  (λ element : obj, prop (VObj element) "id") <$> elements.

Definition an_entry_with_an_id : value :=
  VObj {[ "elements" :=
            VArr [ VObj {[ "id" := VStr "abc"; "type" := VStr "rectangle";
                           "x" := VNum 0; "y" := VNum 0 ]} ] ]}.

(** ** Updates and versions *)

(** [{ ...existingElement, ...updates, updatedAt, version }] *)
Definition updated_element (existingElement updates : obj) (updatedAt : string)
  : obj :=
  <["version" := or_zero_plus_one (prop (VObj existingElement) "version")]>
    (<["updatedAt" := VStr updatedAt]> (assign existingElement updates)).

(** What [UpdateElementSchema.parse] is given: [{ id, ...req.body }]. *)
Definition update_input (id : string) (body : value) : value :=
  VObj (assign {["id" := VStr id]} (own_props body)).

Definition has_version (element : obj) : Prop :=
  ∃ v : Z, element !! "version" = Some (VNum v) ∧ (1 ≤ v)%Z.

(** Every stored record carries a numeric version, at least 1. *)
Definition versioned (store : JSMap.t obj) : Prop :=
  Forall has_version (JSMap.values store).

(** The version of the record stored under an identifier. *)
Definition stored_version (id : string) (w : World) : option value :=
  element ← SingleRoomStateManager.getElement (VStr id) (stateManager w);
  element !! "version".


Definition an_update_of_x : value := VObj {[ "x" := VNum 20 ]}.

(** ** Full sync *)

(** The fields the sync handler writes over those of the payload. *)
Definition sync_stamps : list string :=
  [ "id"; "syncedAt"; "source"; "syncTimestamp"; "version" ].

Definition is_object (v : value) : Prop :=
  match v with VObj _ => True | _ => False end.

(** The identifier under which each entry of the payload that is not
    [null] is stored: its own [id] when that is truthy, the next generated
    one otherwise. *)
Fixpoint sync_ids `{External} (drawn : nat) (payload : list value)
  : list value :=
  match payload with
  | [] => []
  | element :: rest =>
      if nullish element then sync_ids drawn rest
      else if truthy (prop element "id")
           then prop element "id" :: sync_ids drawn rest
           else VStr (generateId_nth drawn) :: sync_ids (S drawn) rest
  end.

(** [synced_from timestamp element (id, record)]: the record is the
    element with the five stamps written over it, and [id] is the
    identifier it is stored under. *)
Definition synced_from `{External} (timestamp element : value)
    (entry : value * obj) : Prop :=
  (∀ k, k ∉ sync_stamps → entry.2 !! k = own_props element !! k)
  ∧ entry.2 !! "id" = Some entry.1
  ∧ (if truthy (prop element "id") then entry.1 = prop element "id"
     else ∃ n, entry.1 = VStr (generateId_nth n))
  ∧ (∃ t, entry.2 !! "syncedAt" = Some (VStr t))
  ∧ entry.2 !! "source" = Some (VStr "frontend_sync")
  ∧ entry.2 !! "syncTimestamp" = Some timestamp
  ∧ entry.2 !! "version" = Some (VNum 1).

Definition two_ellipses_with_one_id : list value :=
  [ VObj {[ "id" := VStr "a"; "type" := VStr "ellipse";
            "x" := VNum 0; "y" := VNum 0 ]};
    VObj {[ "id" := VStr "a"; "type" := VStr "ellipse";
            "x" := VNum 1; "y" := VNum 1 ]} ].

Definition a_sync_of_two : obj :=
  {[ "elements" :=
       VArr [ VObj {[ "id" := VStr "a"; "type" := VStr "ellipse";
                      "x" := VNum 0; "y" := VNum 0 ]};
              VObj {[ "type" := VStr "text"; "x" := VNum 5; "y" := VNum 5;
                      "containerId" := VStr "a" ]} ];
     "timestamp" := VStr "2024-01-01T00:00:00.000Z" ]}.

Definition a_sync_of_twins : obj :=
  {[ "elements" := VArr two_ellipses_with_one_id ]}.

(** ** Search *)

(** The element has the field, and it is the string the query gives.  (A
    query value that is not a string equals no field.) *)
Definition field_equals (element : obj) (key : string) (q : QueryValue) : Prop :=
  ∃ s, q = QString s ∧ element !! key = Some (VStr s).

(** The type filter: it applies when [type] is a non-empty string. *)
Definition type_matches (query : gmap string QueryValue) (element : obj)
  : Prop :=
  match query !! "type" with
  | Some (QString t) => t ≠ "" → field_equals element "type" (QString t)
  | _ => True
  end.

(** What the search returns of the store. *)
Definition matches (query : gmap string QueryValue) (element : obj) : Prop :=
  type_matches query element
  ∧ map_Forall (λ key q, field_equals element key q) (delete "type" query).

(** The reading of the search under which [type], whenever it is given,
    has to equal the type of the element. *)
Definition matches_every_parameter (query : gmap string QueryValue)
    (element : obj) : Prop :=
  map_Forall (λ key q, field_equals element key q) query.

#[global] Instance field_equals_dec element key q :
  Decision (field_equals element key q).
Proof.
  destruct q as [s|]; [|right; by intros (s & [=] & _)].
  destruct (element !! key) as [[| | | |s'| |]|] eqn:E;
    try (right; intros (s0 & [= <-] & Hs); congruence).
  destruct (decide (s' = s)) as [->|Hne].
  - left. by exists s.
  - right. intros (s0 & [= <-] & Hs). congruence.
Defined.

#[global] Instance type_matches_dec query element :
  Decision (type_matches query element).
Proof.
  unfold type_matches. destruct (query !! "type") as [[t|]|]; apply _.
Defined.

#[global] Instance matches_dec query element : Decision (matches query element).
Proof. unfold matches. apply _. Defined.

#[global] Instance matches_every_parameter_dec query element :
  Decision (matches_every_parameter query element).
Proof. unfold matches_every_parameter. apply _. Defined.

Definition an_empty_type_query : gmap string QueryValue :=
  {[ "type" := QString "" ]}.


(** ** Binding sanitation *)

(** Some element of the batch has this identifier. *)
Definition in_batch (batch : list obj) (id : value) : Prop :=
  Exists (λ element : obj,
            same_value_zero (prop (VObj element) "id") id = true) batch.

(** A binding the rule keeps: an object (or array) with a truthy [id]
    that an element of the batch carries, and the type ["text"] or
    ["arrow"]. *)
Definition valid_binding (batch : list obj) (binding : value) : Prop :=
  truthy binding = true
  ∧ typeof_object binding = true
  ∧ truthy (prop binding "id") = true
  ∧ in_batch batch (prop binding "id")
  ∧ ∃ t, prop binding "type" = VStr t ∧ (t = "text" ∨ t = "arrow").

#[global] Instance in_batch_dec batch id : Decision (in_batch batch id).
Proof. unfold in_batch. apply _. Defined.

#[global] Instance valid_binding_dec batch binding :
  Decision (valid_binding batch binding).
Proof.
  unfold valid_binding.
  destruct (prop binding "type") as [| | | |t| |] eqn:Ht;
    try (right; by intros (_ & _ & _ & _ & t & [=] & _)).
  destruct (decide (t = "text" ∨ t = "arrow")) as [Hok|Hno].
  - destruct (decide (truthy binding = true ∧ typeof_object binding = true
                      ∧ truthy (prop binding "id") = true
                      ∧ in_batch batch (prop binding "id"))) as [Hrest|Hno].
    + left. destruct Hrest as (? & ? & ? & ?). eauto 10.
    + right. intros (? & ? & ? & ? & _). by apply Hno.
  - right. intros (_ & _ & _ & _ & t' & [= <-] & Ht'). by apply Hno.
Defined.

(** [sanitized batch before after]: [after] is [before] with the rule
    applied against the batch. *)
Definition sanitized (batch : list obj) (before after : obj) : Prop :=
  match before !! "boundElements" with
  | Some (VArr bindings) =>
      after !! "boundElements"
      = Some (match filter (valid_binding batch) bindings with
              | [] => VNull
              | kept => VArr kept
              end)
  | Some other =>
      after !! "boundElements"
      = Some (if truthy other then VNull else other)
  | None => after !! "boundElements" = None
  end
  ∧ match before !! "containerId" with
    | Some container =>
        after !! "containerId"
        = Some (if truthy container
                then if decide (in_batch batch container) then container
                     else VNull
                else container)
    | None => after !! "containerId" = None
    end
  ∧ ∀ k, k ≠ "boundElements" → k ≠ "containerId" → after !! k = before !! k.




Definition message (type : string) (element : option obj)
    (elements : option (list obj)) : Client.WebSocketMessage :=
  {| Client.type := type; Client.element := element;
     Client.elements := elements; Client.elementId := None;
     Client.mermaidDiagram := None; Client.config := None |}.

(** ** The store as a map *)

(** No entry of the map has the key of an earlier entry. *)
Fixpoint distinct_keys {A} (m : JSMap.t A) : Prop :=
  match m with
  | [] => True
  | (k, _) :: rest =>
      Forall (λ k', same_value_zero k k' = false) (JSMap.keys rest)
      ∧ distinct_keys rest
  end.

Definition a_small_store : SingleRoomStateManager.t :=
  [ (VStr "a", {[ "id" := VStr "a"; "version" := VNum 1 ]});
    (VStr "b", {[ "id" := VStr "b"; "version" := VNum 3 ]}) ].

(** ** The registry as a set *)

(** The identities of the registered connections. *)
Definition handles (clients : list WebSocket) : list nat :=
  SingleRoomClientManager.handle <$> clients.

Definition socket (h state : nat) : WebSocket :=
  {| SingleRoomClientManager.handle := h;
     SingleRoomClientManager.readyState := state;
     SingleRoomClientManager.sent := [] |}.

(** Three connections: two open, one closing. *)
Definition three_connections : list WebSocket :=
  [ socket 1 1; socket 2 2; socket 3 1 ].

Definition is_batch (req : Request) : bool :=
  match req with POST_elements_batch _ => true | _ => false end.

(** Whether the body of a create gives an [id] that [||] keeps: a
    non-empty string. *)
Definition supplies_id (body : value) : bool :=
  match own_props body !! "id" with
  | Some (VStr s) => negb (String.eqb s "")
  | _ => false
  end.

(** The key a create stores its record under:
    [params.id || generateId()]. *)
Definition creation_key `{External} (body : value) (w : World) : string :=
  match own_props body !! "id" with
  | Some (VStr s) => if String.eqb s "" then generateId_nth (ids_drawn w) else s
  | _ => generateId_nth (ids_drawn w)
  end.

(** The entries of a batch that the creation schema accepts. *)
Definition valid_entry `{External} (e : value) : Prop :=
  is_Some (Zod.parse_object CreateElementSchema e).

Definition a_rectangle_named_r1 : value :=
  VObj {[ "id" := VStr "r1"; "type" := VStr "rectangle";
          "x" := VNum 10; "y" := VNum 10 ]}.

Definition a_sync_with_a_null : obj :=
  {[ "elements" :=
       VArr [ VNull;
              VObj {[ "id" := VStr "a"; "type" := VStr "ellipse";
                      "x" := VNum 0; "y" := VNum 0 ]};
              VNull ] ]}.

Definition a_batch_of_one : obj :=
  {[ "elements" := VArr [ a_rectangle_named_r1 ] ]}.

(** ** The reconciler *)

(** The server-only fields [cleanElementForExcalidraw] leaves out. *)
Definition provenance_fields : list string :=
  [ "createdAt"; "updatedAt"; "version"; "syncedAt"; "source";
    "syncTimestamp" ].

(** The message types on which the reconciler puts something on the
    scene. *)
Definition scene_changing_types : list string :=
  [ "initial_elements"; "element_created"; "element_updated";
    "element_deleted"; "elements_batch_created"; "mermaid_convert" ].

(** [no_dangling batch element]: the bindings of the element point into
    the batch. *)
Definition no_dangling (batch : list obj) (element : obj) : Prop :=
  (∀ c, element !! "containerId" = Some c → truthy c = true → in_batch batch c)
  ∧ (∀ v, element !! "boundElements" = Some v → truthy v = true →
       ∃ bindings, v = VArr bindings ∧ bindings ≠ []
                   ∧ Forall (valid_binding batch) bindings).

Definition a_deletion (id : string) : Client.WebSocketMessage :=
  {| Client.type := "element_deleted"; Client.element := None;
     Client.elements := None; Client.elementId := Some id;
     Client.mermaidDiagram := None; Client.config := None |}.

Definition a_scene : list value :=
  [ VObj {[ "id" := VStr "a"; "type" := VStr "ellipse" ]};
    VObj {[ "id" := VStr "b"; "type" := VStr "text";
            "containerId" := VStr "a" ]} ].

Definition an_update (element : obj) : Client.WebSocketMessage :=
  {| Client.type := "element_updated"; Client.element := Some element;
     Client.elements := None; Client.elementId := None;
     Client.mermaidDiagram := None; Client.config := None |}.




(* ===================================================================== *)
(** * Part III: properties                                                 *)
(* ===================================================================== *)


(** ** Broadcast fan-out *)

Section Fanout.

Context `{External}.
Import SingleRoomClientManager.

Lemma broadcast_all_deliveries message (clients : list WebSocket) :
  deliveries clients (broadcast message None clients)
  = open_connections clients.
Proof.
  unfold deliveries, open_connections, broadcast.
  induction clients as [|c cs IH]; [done|].
  rewrite fmap_cons, filter_cons. simpl in IH |- *.
  rewrite IH. case_bool_decide as Hopen.
  - rewrite decide_True by done. simpl. rewrite length_app. simpl. lia.
  - rewrite decide_False by done. simpl. lia.
Qed.

Lemma broadcast_all_pointwise message (clients : list WebSocket) :
  Forall2
    (λ c c', if decide (readyState c = 1) then received message c c'
             else c' = c)
    clients (broadcast message None clients).
Proof.
  unfold broadcast. induction clients as [|c cs IH]; [constructor|].
  rewrite fmap_cons. constructor; [|exact IH]. simpl.
  case_bool_decide; case_decide; try done.
Qed.

Lemma post_elements_accepted body w :
  status_of (post_elements body w).2 = 200 →
  ∃ element, (post_elements body w).2 = json_element element
    ∧ clientManager (post_elements body w).1
      = broadcast (element_created element) None (clientManager w).
Proof.
  unfold post_elements. destruct (Zod.parse_object _ _) as [params|]; [|done].
  destruct (truthy _); simpl; intros _; eexists; split; reflexivity.
Qed.

(** C1 (as amended): an accepted creation is broadcast with nobody
    excluded, so with N connections open exactly N of them are sent the
    [element_created] event carrying the created element (none when
    N = 0); connections that are not open are sent nothing. *)
Theorem create_fanout body w :
  status_of (post_elements body w).2 = 200 →
  deliveries (clientManager w) (clientManager (post_elements body w).1)
  = open_connections (clientManager w)
  ∧ ∃ element,
      (post_elements body w).2 = json_element element
      ∧ Forall2
          (λ c c', if decide (readyState c = 1)
                   then received (element_created element) c c'
                   else c' = c)
          (clientManager w) (clientManager (post_elements body w).1).
Proof.
  intros (element & Hresp & Hclients)%post_elements_accepted.
  rewrite Hclients. split; [apply broadcast_all_deliveries|].
  exists element. split; [done | apply broadcast_all_pointwise].
Qed.

End Fanout.

Lemma create_fanout_witness :
  status_of (post_elements (H:=sample_external) a_rectangle (one_connection 1)).2
  = 200
  ∧ deliveries (clientManager (one_connection 1))
      (clientManager
         (post_elements (H:=sample_external) a_rectangle (one_connection 1)).1)
    = open_connections (clientManager (one_connection 1)).
Proof.
  split; [vm_compute; reflexivity|].
  apply (create_fanout (H:=sample_external) a_rectangle (one_connection 1)).
  vm_compute; reflexivity.
Defined.

(** C1, as stated, fails: with one connection open, that connection is
    sent the event, where N - 1 = 0 deliveries are claimed. *)
Lemma create_fanout_not_all_but_one :
  ¬ (∀ (E : External) body w,
       status_of (post_elements body w).2 = 200 →
       deliveries (clientManager w) (clientManager (post_elements body w).1)
       = open_connections (clientManager w) - 1).
Proof.
  intros claim.
  specialize (claim sample_external a_rectangle (one_connection 1)).
  vm_compute in claim. specialize (claim eq_refl). discriminate claim.
Qed.

(** ** Full sync: the array check *)

Section SyncRejection.

Context `{External}.

Lemma sync_nullish_elements_500 body w :
  nullish body = false →
  nullish (prop body "elements") = true →
  post_elements_sync body w = (w, json_error 500 TypeError).
Proof. unfold post_elements_sync. by intros -> ->. Qed.

(** A payload that is neither an array nor nullish is answered with
    400, and the world is left as it was. *)
Lemma sync_not_array_400 body w :
  nullish body = false →
  nullish (prop body "elements") = false →
  isArray (prop body "elements") = false →
  post_elements_sync body w
  = (w, json_error 400 (Message "Expected elements to be an array")).
Proof.
  unfold post_elements_sync. intros -> -> Harr.
  by destruct (prop body "elements").
Qed.

Lemma sync_without_elements_field (fields : obj) w :
  fields !! "elements" = None →
  post_elements_sync (VObj fields) w = (w, json_error 500 TypeError).
Proof.
  intros Hnone. apply sync_nullish_elements_500; [done|].
  simpl. by rewrite Hnone.
Qed.

(** C6 (defect): a body without an [elements] field is answered with
    500, not 400: the log line reads [frontendElements.length] before
    the array check is reached.  The store is left unchanged. *)
Theorem sync_of_empty_body w :
  post_elements_sync (VObj ∅) w = (w, json_error 500 TypeError).
Proof. by apply sync_without_elements_field. Qed.

End SyncRejection.

(** ** Batch creation: rejection *)

Section BatchRejection.

Context `{External}.

Lemma batch_forEach_clients entries created w :
  clientManager (batch_forEach entries created w).1 = clientManager w.
Proof.
  revert created w. induction entries as [|e es IH]; intros created w; [done|].
  simpl. destruct (Zod.parse_object _ e) as [params|]; [|done].
  by rewrite IH.
Qed.

Lemma batch_forEach_throws entries created w :
  Exists (λ e, Zod.parse_object CreateElementSchema e = None) entries →
  (batch_forEach entries created w).2 = None.
Proof.
  intros Hex. revert created w.
  induction Hex as [e es He|e es Hex IH]; intros created w; simpl.
  - by rewrite He.
  - destruct (Zod.parse_object _ e); [apply IH|done].
Qed.

(** A batch with an entry that fails validation is answered with 400
    and nothing is broadcast. *)
Lemma batch_invalid_entry_rejected (fields : obj) entries w :
  fields !! "elements" = Some (VArr entries) →
  Exists (λ e, Zod.parse_object CreateElementSchema e = None) entries →
  (post_elements_batch (VObj fields) w).2 = json_error 400 ZodError
  ∧ clientManager (post_elements_batch (VObj fields) w).1 = clientManager w.
Proof.
  intros Hf Hex. unfold post_elements_batch. simpl. rewrite Hf. simpl.
  pose proof (batch_forEach_throws entries [] w Hex) as Hnone.
  pose proof (batch_forEach_clients entries [] w) as Hcl.
  destruct (batch_forEach entries [] w) as [w' [created|]]; simpl in *; done.
Qed.

End BatchRejection.

(** C2 (defect): the batch of a valid entry followed by an invalid one is
    answered with 400 and nothing is broadcast, but the valid entry has
    been stored by then and stays: the store grows from 0 to 1. *)
Theorem batch_commits_before_rejecting :
  let result :=
    post_elements_batch (H:=sample_external) a_valid_then_an_invalid_entry
      initial in
  result.2 = json_error 400 ZodError
  ∧ clientManager result.1 = clientManager initial
  ∧ JSMap.size (stateManager initial) = 0
  ∧ JSMap.size (stateManager result.1) = 1.
Proof. vm_compute. done. Qed.

(** ** Schema validation *)

Section ZodFacts.

Import Zod.

Lemma parse_z_object shape (m : obj) :
  parse (z_object shape) (VObj m) = VObj <$> object_fields m shape.
Proof.
  simpl. f_equal. induction shape as [|[k sk] rest IH]; [done|].
  simpl. by rewrite IH.
Qed.

Lemma parse_undefined s r : parse s VUndef = Some r → r = VUndef.
Proof. destruct s; simpl; congruence. Qed.

(** The parsed object has, under a key, what the schema of that key
    makes of the input's value; keys outside the shape and keys the
    input lacks are not set. *)
Lemma object_fields_lookup (m : obj) shape out k :
  object_fields m shape = Some out →
  out !! k = sk ← shape_lookup shape k; v ← m !! k; parse sk v.
Proof.
  revert out. induction shape as [|[k' sk] rest IH]; intros out; simpl.
  - intros [= <-]. by rewrite lookup_empty.
  - destruct (parse sk (default VUndef (m !! k'))) as [r|] eqn:Hr; [|done].
    destruct (object_fields m rest) as [acc|]; [|done].
    intros [= <-]. specialize (IH acc eq_refl).
    destruct (String.eqb_spec k' k) as [->|Hne].
    + simpl. destruct (m !! k) as [v|] eqn:Hv; simpl in *.
      * rewrite Hr. destruct r; by rewrite lookup_insert_eq.
      * apply parse_undefined in Hr as ->. rewrite IH.
        destruct (shape_lookup rest k); simpl; by rewrite ?Hv.
    + rewrite <- IH. destruct r, (m !! k'); by rewrite ?lookup_insert_ne.
Qed.

Lemma parse_object_inv shape v out :
  parse_object (z_object shape) v = Some out →
  ∃ m, v = VObj m ∧ object_fields m shape = Some out.
Proof.
  unfold parse_object. destruct v; try (simpl; done).
  rewrite parse_z_object.
  destruct (object_fields fields shape) eqn:E; simpl; [|done].
  intros [= <-]. eauto.
Qed.

Lemma parse_object_lookup shape v out k :
  parse_object (z_object shape) v = Some out →
  out !! k = sk ← shape_lookup shape k; x ← own_props v !! k; parse sk x.
Proof.
  intros (m & -> & Hm)%parse_object_inv. by apply object_fields_lookup.
Qed.

End ZodFacts.

(** ** The element store *)

Section JSMapFacts.
Context {A : Type}.
Implicit Types (m : JSMap.t A) (k : value) (a : A).

Lemma same_value_zero_eq (x y : value) : same_value_zero x y = true → x = y.
Proof.
  destruct x, y; simpl; try done.
  - by intros ->%bool_decide_eq_true.
  - by intros ->%Z.eqb_eq.
  - by intros ->%String.eqb_eq.
Qed.

Lemma same_value_zero_refl v : primitive v → same_value_zero v v = true.
Proof.
  destruct v; simpl; try done; intros _.
  - by apply bool_decide_eq_true.
  - apply Z.eqb_refl.
  - apply String.eqb_refl.
Qed.

Lemma get_set_eq k a m :
  primitive k → JSMap.get k (JSMap.set k a m) = Some a.
Proof.
  intros Hk. induction m as [|[k' a'] rest IH]; simpl.
  - by rewrite same_value_zero_refl.
  - destruct (same_value_zero k' k) eqn:E; simpl; by rewrite E.
Qed.

Lemma get_set_ne k k' a m :
  same_value_zero k k' = false → same_value_zero k' k = false →
  JSMap.get k' (JSMap.set k a m) = JSMap.get k' m.
Proof.
  intros Hne Hne'. induction m as [|[k0 a0] rest IH]; simpl.
  - by rewrite Hne.
  - destruct (same_value_zero k0 k) eqn:E; simpl.
    + apply same_value_zero_eq in E as ->. by rewrite Hne.
    + by rewrite IH.
Qed.

Lemma set_values_Forall (P : A → Prop) k a m :
  Forall P (JSMap.values m) → P a → Forall P (JSMap.values (JSMap.set k a m)).
Proof.
  unfold JSMap.values. intros Hm Ha.
  induction m as [|[k' a'] rest IH]; simpl.
  - by constructor.
  - apply Forall_cons in Hm as [Ha' Hrest].
    destruct (same_value_zero k' k); simpl; constructor; auto.
Qed.



Lemma set_fresh k a m :
  Forall (λ k', same_value_zero k' k = false) (JSMap.keys m) →
  JSMap.set k a m = m ++ [(k, a)].
Proof.
  unfold JSMap.keys. induction m as [|[k' a'] rest IH]; simpl; [done|].
  intros [-> Hrest]%Forall_cons. by rewrite IH.
Qed.

Lemma foldl_set_fresh (key : A → value) m (ps : list A) :
  NoDup (JSMap.keys m ++ (key <$> ps)) →
  foldl (λ m p, JSMap.set (key p) p m) m ps = m ++ ((λ p, (key p, p)) <$> ps).
Proof.
  revert m. induction ps as [|p ps IH]; intros m; simpl.
  - intros _. by rewrite app_nil_r.
  - intros Hnd. rewrite set_fresh.
    + rewrite IH.
      * by rewrite <- app_assoc.
      * unfold JSMap.keys in *. rewrite fmap_app. simpl.
        rewrite <- app_assoc. exact Hnd.
    + apply NoDup_app in Hnd as (_ & Hdisj & _).
      apply Forall_forall. intros k' Hk'.
      destruct (same_value_zero k' (key p)) eqn:E; [|done].
      apply same_value_zero_eq in E as ->.
      exfalso. apply (Hdisj _ Hk'). by left.
Qed.
End JSMapFacts.

(** ** Creation *)

Section Creation.
Context `{External}.
Import Zod.

Lemma shape_lookup_keys shape k sk :
  shape_lookup shape k = Some sk → k ∈ shape.*1.
Proof.
  induction shape as [|[k' sk'] rest IH]; simpl; [done|].
  rewrite elem_of_cons.
  destruct (String.eqb_spec k' k) as [->|_]; [by left|].
  intros Hl. right. by apply IH.
Qed.

Lemma create_params_keys body params k :
  parse_object CreateElementSchema body = Some params →
  is_Some (params !! k) → k ∈ creation_fields.
Proof.
  intros Hparse [r Hr].
  rewrite (parse_object_lookup _ _ _ k Hparse) in Hr.
  destruct (shape_lookup _ k) as [sk|] eqn:Hsk; [|done].
  by apply shape_lookup_keys in Hsk.
Qed.

Lemma create_params_id body params :
  parse_object CreateElementSchema body = Some params →
  params !! "id" = None ∨ params !! "id" = Some VUndef
  ∨ ∃ s, own_props body !! "id" = Some (VStr s) ∧ params !! "id" = Some (VStr s).
Proof.
  intros Hparse. rewrite (parse_object_lookup _ _ _ "id" Hparse). simpl.
  destruct (own_props body !! "id") as [[]|]; simpl; eauto.
Qed.

Lemma update_params_keys input updates k :
  parse_object UpdateElementSchema input = Some updates →
  is_Some (updates !! k) → is_Some (own_props input !! k).
Proof.
  intros Hparse [r Hr].
  rewrite (parse_object_lookup _ _ _ k Hparse) in Hr.
  destruct (shape_lookup _ k) as [sk|]; [|done]. simpl in Hr.
  destruct (own_props input !! k); [eauto|done].
Qed.

Lemma not_server_field k :
  k ≠ "createdAt" → k ≠ "updatedAt" → k ≠ "version" → k ∉ server_fields.
Proof.
  intros Hc Hu Hv Hin. unfold server_fields in Hin.
  repeat (apply elem_of_cons in Hin as [->|Hin]; [done|]).
  by apply elem_of_nil in Hin.
Qed.

Lemma new_element_version id params w :
  (new_element id params w).1 !! "version" = Some (VNum 1).
Proof. unfold new_element. simpl. by rewrite lookup_insert_eq. Qed.

Lemma new_element_lookup id params w k :
  k ∉ server_fields →
  (new_element id params w).1 !! k
  = match params !! k with
    | Some v => Some v
    | None => if decide (k = "id") then Some id else None
    end.
Proof.
  intros Hk. unfold new_element, assign. simpl.
  rewrite !lookup_insert_ne by (intros <-; apply Hk; set_solver).
  rewrite lookup_union. destruct (params !! k) as [v|] eqn:Hv.
  - by destruct ({[ "id" := id ]} !! k).
  - case_decide as Hid.
    + subst. by rewrite lookup_singleton_eq.
    + by rewrite lookup_singleton_ne.
Qed.

Lemma new_element_only_creation_fields id body params w :
  parse_object CreateElementSchema body = Some params →
  only_creation_fields (new_element id params w).1.
Proof.
  intros Hparse. split; [|split; [apply new_element_version|split]].
  - intros k Hk. destruct (decide (k ∈ server_fields)) as [|Hns]; [by right|left].
    rewrite new_element_lookup in Hk by done.
    destruct (params !! k) eqn:Hp.
    + eapply create_params_keys; eauto.
    + case_decide; [subst; set_solver|by destruct Hk].
  - eexists. unfold new_element. simpl.
    rewrite lookup_insert_ne, lookup_insert_ne, lookup_insert_eq; done.
  - eexists. unfold new_element. simpl.
    rewrite lookup_insert_ne, lookup_insert_eq; done.
Qed.
End Creation.

(** ** The create and batch-create handlers *)

Section Handlers.
Context `{External}.
Import Zod.

Lemma post_elements_inv body w :
  status_of (post_elements body w).2 = 200 →
  ∃ params s,
    parse_object CreateElementSchema body = Some params
    ∧ (own_props body !! "id" = Some (VStr s) ∧ s ≠ ""
       ∨ ¬ (∃ s', own_props body !! "id" = Some (VStr s') ∧ s' ≠ "")
         ∧ s = generateId_nth (ids_drawn w))
    ∧ (post_elements body w).2
      = json_element (new_element (VStr s) params w).1
    ∧ stateManager (post_elements body w).1
      = JSMap.set (VStr s) (new_element (VStr s) params w).1 (stateManager w)
    ∧ clientManager (post_elements body w).1
      = SingleRoomClientManager.broadcast
          (element_created (new_element (VStr s) params w).1) None
          (clientManager w).
Proof.
  unfold post_elements.
  destruct (parse_object _ _) as [params|] eqn:Hparse; [|done].
  intros _. exists params.
  destruct (create_params_id _ _ Hparse) as [Hid|[Hid|(s & Hb & Hid)]].
  - exists (generateId_nth (ids_drawn w)). simpl. rewrite Hid. simpl.
    split; [done|]. split; [|done]. right. split; [|done].
    intros (s' & Hs' & _).
    rewrite (parse_object_lookup _ _ _ "id" Hparse) in Hid.
    simpl in Hid. by rewrite Hs' in Hid.
  - exists (generateId_nth (ids_drawn w)). simpl. rewrite Hid. simpl.
    split; [done|]. split; [|done]. right. split; [|done].
    intros (s' & Hs' & _).
    rewrite (parse_object_lookup _ _ _ "id" Hparse) in Hid.
    simpl in Hid. by rewrite Hs' in Hid.
  - simpl. rewrite Hid. simpl. destruct (String.eqb_spec s "") as [->|Hne]; simpl.
    + exists (generateId_nth (ids_drawn w)).
      split; [done|]. split; [|done]. right. split; [|done].
      intros (s' & Hs' & Hne). congruence.
    + exists s. split; [done|]. split; [|done]. by left.
Qed.

Lemma batch_forEach_spec entries created w :
  ∀ w' created',
  batch_forEach entries created w = (w', Some created') →
  ∃ pairs,
    created' = created ++ pairs.*2
    ∧ stateManager w' = stored pairs (stateManager w)
    ∧ Forall2 created_from entries pairs.
Proof.
  revert created w. induction entries as [|e es IH]; intros created w w' created'.
  - simpl. intros [= <- <-]. exists []. by rewrite app_nil_r.
  - simpl. destruct (parse_object _ e) as [params|] eqn:Hparse; [|done].
    intros Hrest. apply IH in Hrest as (pairs & -> & Hstore & Hall).
    set (id := VStr (generateId_nth (ids_drawn w))).
    exists ((id, (new_element id params w).1) :: pairs). simpl.
    split; [by rewrite <- app_assoc|]. split; [done|].
    constructor; [|done]. by exists params, (ids_drawn w), w.
Qed.

Lemma post_elements_batch_inv body w :
  status_of (post_elements_batch body w).2 = 200 →
  ∃ entries pairs,
    prop body "elements" = VArr entries
    ∧ (post_elements_batch body w).2 = json_elements pairs.*2 (length pairs.*2)
    ∧ stateManager (post_elements_batch body w).1
      = stored pairs (stateManager w)
    ∧ clientManager (post_elements_batch body w).1
      = SingleRoomClientManager.broadcast
          (elements_batch_created pairs.*2) None (clientManager w)
    ∧ Forall2 created_from entries pairs.
Proof.
  unfold post_elements_batch. destruct (nullish body); [done|].
  destruct (prop body "elements") as [| | | | |entries|] eqn:Hel; try done.
  destruct (batch_forEach entries [] w) as [w' [created|]] eqn:Hloop; [|done].
  intros _. pose proof (batch_forEach_clients entries [] w) as Hcl.
  rewrite Hloop in Hcl. simpl in Hcl.
  apply batch_forEach_spec in Hloop as (pairs & -> & Hstore & Hall).
  exists entries, pairs. simpl. rewrite Hcl. done.
Qed.

Lemma created_from_fields e entry :
  created_from e entry → only_creation_fields entry.2.
Proof.
  intros (params & n & w0 & Hparse & _ & ->).
  by eapply new_element_only_creation_fields.
Qed.

(** The record of a batch entry carries the entry's own [id] when it
    has one, whatever identifier it is stored under. *)
Lemma created_from_supplied_id e entry s :
  created_from e entry →
  own_props e !! "id" = Some (VStr s) →
  entry.2 !! "id" = Some (VStr s).
Proof.
  intros (params & n & w0 & Hparse & _ & ->) Hid.
  rewrite new_element_lookup by (by apply not_server_field).
  rewrite (parse_object_lookup _ _ _ "id" Hparse). simpl. by rewrite Hid.
Qed.

Lemma new_element_created_record e id params w :
  parse_object CreateElementSchema e = Some params →
  created_record e id (clock_reads w) (new_element id params w).1.
Proof.
  intros Hparse. exists params. split; [done|]. split; [|split].
  - intros k Hk Hid. rewrite new_element_lookup by done.
    destruct (params !! k); [done|]. by rewrite decide_False.
  - rewrite new_element_lookup
      by (unfold server_fields; rewrite !elem_of_cons, elem_of_nil;
          intuition discriminate).
    by destruct (params !! "id").
  - unfold new_element. simpl. repeat split.
    + by rewrite lookup_insert_ne, lookup_insert_ne, lookup_insert_eq.
    + by rewrite lookup_insert_ne, lookup_insert_eq.
    + by rewrite lookup_insert_eq.
Qed.

Lemma batch_records_length drawn reads entries pairs :
  batch_records drawn reads entries pairs → length pairs = length entries.
Proof.
  revert drawn reads pairs.
  induction entries as [|e es IH]; intros drawn reads [|p ps]; simpl; try done.
  intros (_ & _ & Hrest). f_equal. by eapply IH.
Qed.

Lemma batch_forEach_records entries : ∀ created w w' created',
  batch_forEach entries created w = (w', Some created') →
  ∃ pairs,
    created' = created ++ pairs.*2
    ∧ stateManager w' = stored pairs (stateManager w)
    ∧ batch_records (ids_drawn w) (clock_reads w) entries pairs.
Proof.
  induction entries as [|e es IH]; intros created w w' created'.
  - simpl. intros [= <- <-]. exists []. by rewrite app_nil_r.
  - simpl. destruct (parse_object _ e) as [params|] eqn:Hparse; [|done].
    intros Hrest. apply IH in Hrest as (pairs & -> & Hstore & Hall).
    set (id := VStr (generateId_nth (ids_drawn w))).
    exists ((id, (new_element id params w).1) :: pairs). simpl.
    split; [by rewrite <- app_assoc|]. split; [done|].
    split; [done|]. split; [|exact Hall].
    by apply new_element_created_record.
Qed.

Lemma post_elements_batch_records body w :
  status_of (post_elements_batch body w).2 = 200 →
  ∃ entries pairs,
    prop body "elements" = VArr entries
    ∧ batch_records (ids_drawn w) (clock_reads w) entries pairs
    ∧ (post_elements_batch body w).2 = json_elements pairs.*2 (length pairs.*2)
    ∧ stateManager (post_elements_batch body w).1
      = stored pairs (stateManager w)
    ∧ clientManager (post_elements_batch body w).1
      = SingleRoomClientManager.broadcast
          (elements_batch_created pairs.*2) None (clientManager w).
Proof.
  unfold post_elements_batch. destruct (nullish body); [done|].
  destruct (prop body "elements") as [| | | | |entries|] eqn:Hel; try done.
  destruct (batch_forEach entries [] w) as [w' [created|]] eqn:Hloop; [|done].
  intros _. pose proof (batch_forEach_clients entries [] w) as Hcl.
  rewrite Hloop in Hcl. simpl in Hcl.
  apply batch_forEach_records in Hloop as (pairs & -> & Hstore & Hall).
  exists entries, pairs. simpl. rewrite Hcl. done.
Qed.

Lemma created_record_only_creation_fields e key reads element :
  created_record e key reads element → only_creation_fields element.
Proof.
  intros (params & Hparse & Hframe & Hid & Hc & Hu & Hv).
  split; [|split; [done|split; eauto]].
  intros k Hk. destruct (decide (k ∈ server_fields)) as [|Hns]; [by right|left].
  destruct (decide (k = "id")) as [->|Hne].
  - unfold creation_fields. apply elem_of_cons. by left.
  - rewrite Hframe in Hk by done. eapply create_params_keys; eauto.
Qed.

Lemma batch_records_only_creation_fields drawn reads entries pairs :
  batch_records drawn reads entries pairs →
  Forall only_creation_fields pairs.*2.
Proof.
  revert drawn reads pairs.
  induction entries as [|e es IH]; intros drawn reads [|p ps]; simpl; try done.
  intros (_ & Hp & Hrest). constructor; [|by eapply IH].
  by eapply created_record_only_creation_fields.
Qed.

Lemma post_elements_record body w :
  status_of (post_elements body w).2 = 200 →
  ∃ id element,
    (post_elements body w).2 = json_element element
    ∧ stateManager (post_elements body w).1
      = JSMap.set id element (stateManager w)
    ∧ clientManager (post_elements body w).1
      = SingleRoomClientManager.broadcast (element_created element) None
          (clientManager w)
    ∧ created_record body id (clock_reads w) element.
Proof.
  intros (params & s & Hparse & _ & Hresp & Hstore & Hcl)%post_elements_inv.
  exists (VStr s), (new_element (VStr s) params w).1.
  repeat split; try done. by apply new_element_created_record.
Qed.
End Handlers.

(** C9 (defect): the batch handler stores the record of an entry under a
    generated identifier, but the spread of the parsed entry comes after
    [id] in the object literal, so the record itself (stored, broadcast
    and returned) keeps the [id] the entry supplied; the record cannot be
    fetched under that [id]. *)
Theorem batch_record_keeps_supplied_id :
  let result :=
    post_elements_batch (H:=sample_external) an_entry_with_an_id initial in
  status_of result.2 = 200
  ∧ JSMap.keys (stateManager result.1) = [VStr "id-0"]
  ∧ ids_of (JSMap.values (stateManager result.1)) = [VStr "abc"]
  ∧ (get_elements_id "abc" result.1).2
    = json_error 404 (Message "Element with ID abc not found").
Proof. vm_compute. done. Qed.

(** ** Updates and versions *)

Section Updates.
Context `{External}.
Import Zod.

Lemma put_elements_id_inv id body w :
  status_of (put_elements_id id body w).2 = 200 →
  ∃ updates existing,
    parse_object UpdateElementSchema (update_input id body) = Some updates
    ∧ SingleRoomStateManager.getElement (VStr id) (stateManager w)
      = Some existing
    ∧ (put_elements_id id body w).2
      = json_element
          (updated_element existing updates (toISOString_nth (clock_reads w)))
    ∧ stateManager (put_elements_id id body w).1
      = JSMap.set (VStr id)
          (updated_element existing updates (toISOString_nth (clock_reads w)))
          (stateManager w)
    ∧ clientManager (put_elements_id id body w).1
      = SingleRoomClientManager.broadcast
          (element_updated
             (updated_element existing updates
                (toISOString_nth (clock_reads w))))
          None (clientManager w).
Proof.
  unfold put_elements_id, update_input.
  destruct (parse_object _ _) as [updates|]; [|done].
  destruct (negb _); [done|].
  destruct (SingleRoomStateManager.getElement _ _) as [existing|]; [|done].
  intros _. by exists updates, existing.
Qed.

Lemma put_elements_id_rejected id body w :
  status_of (put_elements_id id body w).2 ≠ 200 →
  (put_elements_id id body w).1 = w.
Proof.
  unfold put_elements_id.
  destruct (parse_object _ _) as [updates|]; [|done].
  destruct (negb _); [done|].
  destruct (SingleRoomStateManager.getElement _ _) as [existing|]; done.
Qed.


Lemma updated_element_lookup existing updates updatedAt k :
  k ≠ "version" → k ≠ "updatedAt" →
  updated_element existing updates updatedAt !! k
  = match updates !! k with Some v => Some v | None => existing !! k end.
Proof.
  intros Hv Hu. unfold updated_element, assign.
  rewrite !lookup_insert_ne by done. rewrite lookup_union.
  by destruct (updates !! k), (existing !! k).
Qed.

(** An update sets the fields that the body supplies and the schema
    knows, and [id]; every other field keeps the stored value. *)
Lemma update_untouched id body updates k :
  parse_object UpdateElementSchema (update_input id body) = Some updates →
  k ≠ "id" → own_props body !! k = None → updates !! k = None.
Proof.
  intros Hparse Hid Hk. destruct (updates !! k) eqn:Hu; [|done].
  assert (is_Some (own_props (update_input id body) !! k)) as [x Hx].
  { eapply update_params_keys; eauto. }
  simpl in Hx. unfold assign in Hx.
  rewrite lookup_union, Hk, lookup_singleton_ne in Hx by done. done.
Qed.

Lemma update_id_from_path id body updates :
  parse_object UpdateElementSchema (update_input id body) = Some updates →
  own_props body !! "id" = None → updates !! "id" = Some (VStr id).
Proof.
  intros Hparse Hk.
  rewrite (parse_object_lookup _ _ _ "id" Hparse). simpl. unfold assign.
  by rewrite lookup_union, Hk, lookup_singleton_eq.
Qed.

End Updates.

Section Versions.
Context `{External}.
Import Zod.


Lemma versioned_setElement id element w :
  versioned (stateManager w) → has_version element →
  versioned (stateManager (stateManager_setElement id element w)).
Proof. intros Hw He. by apply set_values_Forall. Qed.











End Versions.


Section VersionTheorems.
Context `{External}.
Import Zod.




(** The frame of an update: a field that the body does not supply, other
    than [updatedAt], [version] and [id], keeps its stored value; and so
    does [id] when the record carries the identifier it is stored
    under. *)
Lemma update_frame id body w k :
  status_of (put_elements_id id body w).2 = 200 →
  k ≠ "updatedAt" → k ≠ "version" →
  own_props body !! k = None →
  ∃ old new,
    SingleRoomStateManager.getElement (VStr id) (stateManager w) = Some old
    ∧ (put_elements_id id body w).2 = json_element new
    ∧ SingleRoomStateManager.getElement (VStr id)
        (stateManager (put_elements_id id body w).1) = Some new
    ∧ (k ≠ "id" ∨ old !! "id" = Some (VStr id) → new !! k = old !! k).
Proof.
  intros (updates & existing & Hparse & Hget & Hresp & Hstore & _)
           %put_elements_id_inv Hu Hv Hk.
  eexists _, _. split; [done|]. split; [done|].
  split; [rewrite Hstore; by apply get_set_eq|].
  rewrite updated_element_lookup by done.
  intros [Hid|Hid].
  - by rewrite (update_untouched _ _ _ _ Hparse Hid Hk).
  - destruct (decide (k = "id")) as [->|Hne].
    + by rewrite (update_id_from_path _ _ _ Hparse Hk).
    + by rewrite (update_untouched _ _ _ _ Hparse Hne Hk).
Qed.

End VersionTheorems.


(** C8 (defect): a record that batch-create stored under ["id-0"] with the
    [id] ["abc"] of its entry is updated with a body that supplies [x]
    only; the update writes the identifier of the path over the record's
    [id], which the body did not supply. *)
Theorem update_rewrites_unsupplied_id :
  let w := (post_elements_batch (H:=sample_external) an_entry_with_an_id
              initial).1 in
  let result := put_elements_id (H:=sample_external) "id-0" an_update_of_x w in
  own_props an_update_of_x !! "id" = None
  ∧ status_of result.2 = 200
  ∧ ids_of (JSMap.values (stateManager w)) = [VStr "abc"]
  ∧ ids_of (JSMap.values (stateManager result.1)) = [VStr "id-0"].
Proof. vm_compute. done. Qed.

(** ** Full sync *)

(** Reads a key of a tower of inserts. *)
Ltac lookup_inserted :=
  repeat first [ rewrite lookup_insert_eq
               | rewrite lookup_insert_ne by done ].

Section SyncFacts.
Context `{External}.

Lemma stored_fresh (pairs : list (value * obj)) : ∀ store,
  NoDup (JSMap.keys store ++ pairs.*1) →
  stored pairs store = store ++ pairs.
Proof.
  unfold stored. induction pairs as [|[k a] ps IH]; intros store; simpl.
  - intros _. by rewrite app_nil_r.
  - intros Hnd. rewrite set_fresh.
    + rewrite IH.
      * by rewrite <- app_assoc.
      * unfold JSMap.keys in *. rewrite fmap_app. simpl.
        rewrite <- app_assoc. exact Hnd.
    + apply NoDup_app in Hnd as (_ & Hdisj & _).
      apply Forall_forall. intros k' Hk'.
      destruct (same_value_zero k' k) eqn:E; [|done].
      apply same_value_zero_eq in E as ->.
      exfalso. apply (Hdisj _ Hk'). by left.
Qed.

Lemma not_sync_stamp k :
  k ∉ sync_stamps →
  k ≠ "id" ∧ k ≠ "syncedAt" ∧ k ≠ "source" ∧ k ≠ "syncTimestamp"
  ∧ k ≠ "version".
Proof.
  unfold sync_stamps. rewrite !elem_of_cons, elem_of_nil. intros Hk.
  repeat split; intros ->; apply Hk; tauto.
Qed.

Lemma sync_element_spec timestamp element w processed :
  nullish element = false →
  ∃ entry,
    sync_element timestamp element (w, processed)
    = (stateManager_setElement entry.1 entry.2
         {| stateManager := stateManager w; clientManager := clientManager w;
            ids_drawn :=
              if truthy (prop element "id") then ids_drawn w
              else S (ids_drawn w);
            clock_reads := S (clock_reads w) |},
       processed ++ [entry.2])
    ∧ synced_from timestamp element entry
    ∧ entry.1 = (if truthy (prop element "id") then prop element "id"
                 else VStr (generateId_nth (ids_drawn w))).
Proof.
  intros Hnn. unfold sync_element. rewrite Hnn.
  destruct (truthy (prop element "id")) eqn:Hid; simpl.
  - eexists (_, _). simpl. split; [reflexivity|]. split; [|done].
    unfold synced_from. simpl. rewrite Hid.
    split; [|repeat split; lookup_inserted; eauto].
    intros k (? & ? & ? & ? & ?)%not_sync_stamp.
    by rewrite !lookup_insert_ne.
  - eexists (_, _). simpl. split; [reflexivity|]. split; [|done].
    unfold synced_from. simpl. rewrite Hid.
    split; [|repeat split; lookup_inserted; eauto].
    intros k (? & ? & ? & ? & ?)%not_sync_stamp.
    by rewrite !lookup_insert_ne.
Qed.

Lemma sync_loop_spec timestamp payload : ∀ w processed,
  ∃ pairs,
    (foldl (λ acc element, sync_element timestamp element acc)
       (w, processed) payload).2 = processed ++ pairs.*2
    ∧ stateManager
        (foldl (λ acc element, sync_element timestamp element acc)
           (w, processed) payload).1 = stored pairs (stateManager w)
    ∧ clientManager
        (foldl (λ acc element, sync_element timestamp element acc)
           (w, processed) payload).1 = clientManager w
    ∧ Forall2 (synced_from timestamp)
        (filter (λ e, nullish e = false) payload) pairs
    ∧ pairs.*1 = sync_ids (ids_drawn w) payload.
Proof.
  induction payload as [|e es IH]; intros w processed.
  - exists []. simpl. by rewrite app_nil_r.
  - cbn [foldl]. rewrite filter_cons. cbn [sync_ids].
    destruct (nullish e) eqn:Hnull.
    + rewrite decide_False by done.
      assert (sync_element timestamp e (w, processed) = (w, processed)) as ->.
      { unfold sync_element. by rewrite Hnull. }
      apply IH.
    + rewrite decide_True by done.
      destruct (sync_element_spec timestamp e w processed Hnull)
        as (entry & -> & Hentry & Hkey).
      match goal with
      | |- context [foldl _ (?w1, _) es] =>
          destruct (IH w1 (processed ++ [entry.2]))
            as (pairs & Hp & Hs & Hc & Hall & Hids)
      end.
      exists (entry :: pairs). rewrite Hp, Hs, Hc.
      split; [by rewrite <- app_assoc|].
      split; [by destruct entry|]. split; [done|].
      split; [by constructor|].
      rewrite fmap_cons, Hids, Hkey. simpl.
      by destruct (truthy (prop e "id")).
Qed.

(** What an accepted full sync leaves: the store is cleared and the
    records made of the entries that are not [null] are set, in order,
    each under its identifier; a confirmation is broadcast. *)
Lemma post_elements_sync_inv (fields : obj) payload w :
  fields !! "elements" = Some (VArr payload) →
  ∃ pairs broadcastAt syncedAt,
    (post_elements_sync (VObj fields) w).2
    = json_sync (length pairs) syncedAt (JSMap.size (stateManager w))
        (JSMap.size (stored pairs []))
    ∧ stateManager (post_elements_sync (VObj fields) w).1 = stored pairs []
    ∧ clientManager (post_elements_sync (VObj fields) w).1
      = SingleRoomClientManager.broadcast
          (elements_synced (length pairs) broadcastAt "manual_sync") None
          (clientManager w)
    ∧ Forall2 (synced_from (prop (VObj fields) "timestamp"))
        (filter (λ e, nullish e = false) payload) pairs
    ∧ pairs.*1 = sync_ids (ids_drawn w) payload.
Proof.
  intros Hel. unfold post_elements_sync. simpl. rewrite Hel. simpl.
  unfold sync_forEach.
  destruct (sync_loop_spec (default VUndef (fields !! "timestamp")) payload
              (with_store (SingleRoomStateManager.clearElements
                             (stateManager w)) w) [])
    as (pairs & Hp & Hs & Hc & Hall & Hids).
  destruct (foldl _ _ payload) as [w1 processed]. simpl in *. subst processed.
  exists pairs. eexists _, _. rewrite length_fmap, Hs, Hc.
  repeat split; done.
Qed.

Lemma sync_forgets_store (fields : obj) payload w :
  fields !! "elements" = Some (VArr payload) →
  stateManager (post_elements_sync (VObj fields) (with_store [] w)).1
  = stateManager (post_elements_sync (VObj fields) w).1.
Proof.
  intros Hel. unfold post_elements_sync. simpl. rewrite Hel. simpl.
  change (with_store (SingleRoomStateManager.clearElements [])
            (with_store [] w))
    with (with_store (SingleRoomStateManager.clearElements (stateManager w)) w).
  by destruct (sync_forEach _ _ _).
Qed.

Lemma filter_objects payload :
  Forall is_object payload →
  filter (λ e, nullish e = false) payload = payload.
Proof.
  induction 1 as [|e es He _ IH]; [done|].
  rewrite filter_cons, IH. by destruct e.
Qed.

(** C3 (as amended): a full sync whose payload is an array of n objects
    with pairwise distinct identifiers (their own, or generated where
    absent or falsy) leaves exactly n records in the store, one per
    element and in payload order, each being its element stamped with
    [id], [syncedAt], [source = "frontend_sync"], [syncTimestamp] and
    [version = 1]; the response counts n; and nothing of the earlier
    store remains: the store afterwards is the one the same request
    leaves when it starts from an empty store. *)
Theorem sync_replaces_store (fields : obj) payload w :
  fields !! "elements" = Some (VArr payload) →
  Forall is_object payload →
  NoDup (sync_ids (ids_drawn w) payload) →
  JSMap.size (stateManager (post_elements_sync (VObj fields) w).1)
  = length payload
  ∧ Forall2 (synced_from (prop (VObj fields) "timestamp")) payload
      (stateManager (post_elements_sync (VObj fields) w).1)
  ∧ JSMap.keys (stateManager (post_elements_sync (VObj fields) w).1)
    = sync_ids (ids_drawn w) payload
  ∧ (∃ syncedAt,
       (post_elements_sync (VObj fields) w).2
       = json_sync (length payload) syncedAt (JSMap.size (stateManager w))
           (length payload))
  ∧ stateManager (post_elements_sync (VObj fields) w).1
    = stateManager (post_elements_sync (VObj fields) (with_store [] w)).1.
Proof.
  intros Hel Hobj Hnd.
  destruct (post_elements_sync_inv fields payload w Hel)
    as (pairs & broadcastAt & syncedAt & Hresp & Hstore & _ & Hall & Hids).
  rewrite filter_objects in Hall by done.
  assert (stored pairs [] = pairs) as Hfresh.
  { rewrite stored_fresh; [done|]. simpl. by rewrite Hids. }
  rewrite (sync_forgets_store fields payload w Hel).
  rewrite Hresp, Hstore, Hfresh.
  pose proof (Forall2_length _ _ _ Hall) as Hlen.
  unfold JSMap.size, JSMap.keys. rewrite <- Hlen.
  split; [done|]. split; [done|]. split; [done|]. split; [by eexists|done].
Qed.
End SyncFacts.

Lemma sync_replaces_store_witness :
  let w := (post_elements (H:=sample_external) a_rectangle initial).1 in
  let payload :=
    [ VObj {[ "id" := VStr "a"; "type" := VStr "ellipse";
              "x" := VNum 0; "y" := VNum 0 ]};
      VObj {[ "type" := VStr "text"; "x" := VNum 5; "y" := VNum 5;
              "containerId" := VStr "a" ]} ] in
  (a_sync_of_two !! "elements" = Some (VArr payload)
   ∧ Forall is_object payload
   ∧ NoDup (sync_ids (H:=sample_external) (ids_drawn w) payload))
  ∧ JSMap.size
      (stateManager
         (post_elements_sync (H:=sample_external) (VObj a_sync_of_two) w).1)
    = length payload.
Proof.
  intros w payload.
  assert (a_sync_of_two !! "elements" = Some (VArr payload)) as Hel
    by (vm_compute; reflexivity).
  assert (Forall is_object payload) as Hobj by (repeat constructor).
  assert (NoDup (sync_ids (H:=sample_external) (ids_drawn w) payload)) as Hnd.
  { vm_compute. apply NoDup_cons. split; [|apply NoDup_singleton].
    rewrite list_elem_of_singleton. discriminate. }
  split; [done|].
  exact (proj1 (sync_replaces_store (H:=sample_external) a_sync_of_two payload
                  w Hel Hobj Hnd)).
Defined.

(** C3, as stated, fails: two well-formed elements that carry the same
    [id] leave one record in the store, not two. *)
Lemma sync_of_twins_leaves_one :
  ¬ (∀ (E : External) (fields : obj) payload w,
       fields !! "elements" = Some (VArr payload) →
       Forall is_object payload →
       JSMap.size (stateManager (post_elements_sync (VObj fields) w).1)
       = length payload).
Proof.
  intros claim.
  specialize (claim sample_external a_sync_of_twins two_ellipses_with_one_id
                initial).
  assert (a_sync_of_twins !! "elements" = Some (VArr two_ellipses_with_one_id))
    as Hel by (vm_compute; reflexivity).
  specialize (claim Hel ltac:(repeat constructor)).
  vm_compute in claim. discriminate claim.
Qed.

Lemma only_creation_fields_strips (element : obj) k :
  only_creation_fields element →
  k ∉ creation_fields → k ∉ server_fields → element !! k = None.
Proof.
  intros (Honly & _) Hc Hs. destruct (element !! k) eqn:Hk; [|done].
  destruct (Honly k) as [?|?]; [by eexists|done..].
Qed.

Section StoredFields.
Context `{External}.

(** C10 (as amended): a record that create or batch-create stores and
    broadcasts has the fields of the creation schema that the parsed
    body or entry has, with their parsed values, and besides them only
    the three fields the server assigns, with the server's values
    whatever was submitted: [createdAt] and [updatedAt] are the next two
    clock readings and [version] is 1; a field that is neither of the
    schema nor one of the three is not in the record.  Batch-create
    makes one such record of every entry, in order.  Full sync
    validates nothing: every entry that is not [null] yields a record
    that has each submitted field verbatim, the five stamps [id],
    [syncedAt], [source], [syncTimestamp] and [version] excepted. *)
Theorem creation_strips_and_sync_keeps :
  (∀ body w,
     status_of (post_elements body w).2 = 200 →
     ∃ id element,
       (post_elements body w).2 = json_element element
       ∧ stateManager (post_elements body w).1
         = JSMap.set id element (stateManager w)
       ∧ clientManager (post_elements body w).1
         = SingleRoomClientManager.broadcast (element_created element) None
             (clientManager w)
       ∧ only_creation_fields element
       ∧ created_record body id (clock_reads w) element
       ∧ ∀ k, k ∉ creation_fields → k ∉ server_fields → element !! k = None)
  ∧ (∀ body w,
       status_of (post_elements_batch body w).2 = 200 →
       ∃ entries pairs,
         prop body "elements" = VArr entries
         ∧ batch_records (ids_drawn w) (clock_reads w) entries pairs
         ∧ (post_elements_batch body w).2
           = json_elements pairs.*2 (length pairs.*2)
         ∧ stateManager (post_elements_batch body w).1
           = stored pairs (stateManager w)
         ∧ clientManager (post_elements_batch body w).1
           = SingleRoomClientManager.broadcast
               (elements_batch_created pairs.*2) None (clientManager w)
         ∧ Forall only_creation_fields pairs.*2
         ∧ Forall (λ element : obj,
                     ∀ k, k ∉ creation_fields → k ∉ server_fields →
                          element !! k = None) pairs.*2)
  ∧ (∀ (fields : obj) payload w,
       fields !! "elements" = Some (VArr payload) →
       ∃ pairs,
         stateManager (post_elements_sync (VObj fields) w).1
         = stored pairs []
         ∧ Forall2 (synced_from (prop (VObj fields) "timestamp"))
             (filter (λ e, nullish e = false) payload) pairs).
Proof.
  split; [|split].
  - intros body w (id & element & Hresp & Hstore & Hcl & Hrec)
                    %post_elements_record.
    pose proof (created_record_only_creation_fields _ _ _ _ Hrec) as Honly.
    exists id, element.
    split; [done|]. split; [done|]. split; [done|]. split; [done|].
    split; [done|]. intros k. by apply only_creation_fields_strips.
  - intros body w
      (entries & pairs & Hel & Hall & Hresp & Hstore & Hcl)
        %post_elements_batch_records.
    pose proof (batch_records_only_creation_fields _ _ _ _ Hall) as Honly.
    exists entries, pairs.
    split; [done|]. split; [done|]. split; [done|]. split; [done|].
    split; [done|]. split; [done|].
    eapply Forall_impl; [exact Honly|].
    intros element Hel' k. by apply only_creation_fields_strips.
  - intros fields payload w Hel.
    destruct (post_elements_sync_inv fields payload w Hel)
      as (pairs & _ & _ & _ & Hstore & _ & Hall & _).
    by exists pairs.
Qed.
End StoredFields.

Lemma creation_strips_and_sync_keeps_witness :
  status_of
    (post_elements (H:=sample_external) a_body_with_more_fields initial).2
  = 200
  ∧ ∃ id element,
      (post_elements (H:=sample_external) a_body_with_more_fields initial).2
      = json_element element
      ∧ stateManager
          (post_elements (H:=sample_external) a_body_with_more_fields initial).1
        = JSMap.set id element (stateManager initial)
      ∧ clientManager
          (post_elements (H:=sample_external) a_body_with_more_fields initial).1
        = SingleRoomClientManager.broadcast (element_created element) None
            (clientManager initial)
      ∧ only_creation_fields element
      ∧ created_record (H:=sample_external) a_body_with_more_fields id
          (clock_reads initial) element
      ∧ ∀ k, k ∉ creation_fields → k ∉ server_fields → element !! k = None.
Proof.
  split; [vm_compute; reflexivity|].
  apply (proj1 (creation_strips_and_sync_keeps (H:=sample_external))).
  vm_compute; reflexivity.
Defined.

(** C10, as stated, fails: the record made of a plain rectangle carries
    [createdAt], which is no field of the creation schema. *)
Lemma created_record_carries_server_fields :
  ¬ (∀ (E : External) body w,
       status_of (post_elements body w).2 = 200 →
       ∃ element,
         (post_elements body w).2 = json_element element
         ∧ ∀ k, is_Some (element !! k) → k ∈ creation_fields).
Proof.
  intros claim.
  destruct (claim sample_external a_rectangle initial) as (element & Heq & Hall);
    [vm_compute; reflexivity|].
  assert (is_Some (element !! "createdAt")) as Hcreated.
  { vm_compute in Heq. injection Heq as <-. vm_compute. by eexists. }
  apply Hall in Hcreated. unfold creation_fields in Hcreated.
  rewrite !elem_of_cons, elem_of_nil in Hcreated. intuition discriminate.
Qed.

(** ** Search *)

Section Search.
Context `{External}.




End Search.


(** The same happens with [?type=]: an empty type filters nothing. *)
Lemma search_ignores_an_empty_type :
  ¬ (∀ (E : External) query w,
       (get_elements_search query w).2
       = json_elements
           (filter (matches_every_parameter query)
              (JSMap.values (stateManager w)))
           (length (filter (matches_every_parameter query)
                      (JSMap.values (stateManager w))))).
Proof.
  intros claim.
  specialize (claim sample_external an_empty_type_query
                (post_elements (H:=sample_external) a_rectangle initial).1).
  vm_compute in claim. discriminate claim.
Qed.

(** ** Binding sanitation *)

Section Sanitation.
Context `{External}.
Import Client.

Lemma get_set_is_Some {A} k k' (a : A) m :
  is_Some (JSMap.get k (JSMap.set k' a m))
  ↔ same_value_zero k' k = true ∨ is_Some (JSMap.get k m).
Proof.
  induction m as [|[k0 a0] rest IH]; simpl.
  - destruct (same_value_zero k' k); rewrite <- ?not_eq_None_Some;
      intuition congruence.
  - destruct (same_value_zero k0 k') eqn:E0; simpl.
    + apply same_value_zero_eq in E0 as ->.
      destruct (same_value_zero k' k); rewrite <- ?not_eq_None_Some;
        intuition congruence.
    + destruct (same_value_zero k0 k); [|apply IH].
      rewrite <- !not_eq_None_Some. intuition congruence.
Qed.

Lemma get_of_pairs {A} k (pairs : list (value * A)) : ∀ m,
  is_Some (JSMap.get k (foldl (λ m '(k', a), JSMap.set k' a m) m pairs))
  ↔ is_Some (JSMap.get k m)
    ∨ Exists (λ p, same_value_zero p.1 k = true) pairs.
Proof.
  induction pairs as [|[k' a] ps IH]; intros m; simpl.
  - rewrite Exists_nil. tauto.
  - rewrite IH, get_set_is_Some, Exists_cons. simpl. tauto.
Qed.

Lemma elementMap_get (batch : list obj) k :
  is_Some (JSMap.get k
             (JSMap.of_pairs
                ((λ el : obj, (prop (VObj el) "id", el)) <$> batch)))
  ↔ in_batch batch k.
Proof.
  unfold JSMap.of_pairs, in_batch. rewrite get_of_pairs. simpl.
  rewrite Exists_fmap. split; [intros [[]|]|]; eauto. done.
Qed.

Lemma includes_text_arrow v :
  includes [VStr "text"; VStr "arrow"] v = true
  ↔ ∃ t, v = VStr t ∧ (t = "text" ∨ t = "arrow").
Proof.
  unfold includes. cbn [existsb].
  destruct v as [| | | |t| |]; cbn [same_value_zero orb];
    try (split; [done|]; by intros (t & [=] & _)).
  rewrite orb_false_r, orb_true_iff, !String.eqb_eq. split.
  - intros [<-|<-]; eauto.
  - intros (t' & [= <-] & [->| ->]); eauto.
Qed.

Lemma keep_binding_spec (batch : list obj) binding :
  keep_binding
    (JSMap.of_pairs ((λ el : obj, (prop (VObj el) "id", el)) <$> batch))
    binding = true
  ↔ valid_binding batch binding.
Proof.
  unfold keep_binding, valid_binding.
  rewrite <- includes_text_arrow, <- elementMap_get.
  destruct (truthy binding); cbn [negb orb]; [|intuition congruence].
  destruct (typeof_object binding); cbn [negb orb]; [|intuition congruence].
  destruct (truthy (prop binding "id")); cbn [negb orb];
    [|intuition congruence].
  destruct (truthy (prop binding "type")) eqn:Hty; cbn [negb orb].
  2:{ split; [done|]. intros (_ & _ & _ & _ & Hinc).
      apply includes_text_arrow in Hinc as (t & Ht & [-> | ->]);
        rewrite Ht in Hty; done. }
  case_bool_decide as Hin; cbn [negb]; [|intuition congruence].
  destruct (includes _ _); cbn [negb]; intuition congruence.
Qed.

Lemma fix_bindings_of_sanitized (batch : list obj) element :
  sanitized batch element
    (fix_bindings_of
       (JSMap.of_pairs ((λ el : obj, (prop (VObj el) "id", el)) <$> batch))
       element).
Proof.
  set (elementMap := JSMap.of_pairs _).
  assert (∀ bindings : list value,
            filter (λ b, keep_binding elementMap b = true) bindings
            = filter (valid_binding batch) bindings) as Hfilter.
  { intros bindings. apply list_filter_iff. intros b.
    apply keep_binding_spec. }
  unfold fix_bindings_of, sanitized.
  set (fixed1 :=
         if truthy (prop (VObj element) "boundElements") then _ else element).
  assert (match element !! "boundElements" with
          | Some (VArr bindings) =>
              fixed1 !! "boundElements"
              = Some (match filter (valid_binding batch) bindings with
                      | [] => VNull
                      | kept => VArr kept
                      end)
          | Some other =>
              fixed1 !! "boundElements"
              = Some (if truthy other then VNull else other)
          | None => fixed1 !! "boundElements" = None
          end
          ∧ ∀ k, k ≠ "boundElements" → fixed1 !! k = element !! k)
    as [Hbound Hframe1].
  { subst fixed1. cbn [prop].
    destruct (element !! "boundElements") as [bound|] eqn:Hb;
      cbn [default from_option id].
    - destruct bound as [| |b|n|s|bindings|m];
        cbn [truthy];
        try (split; [by rewrite ?Hb|done]).
      + destruct b; [|split; [by rewrite ?Hb|done]].
        split; [by rewrite lookup_insert_eq|].
        intros k Hk. by rewrite lookup_insert_ne.
      + destruct (negb (n =? 0)%Z); [|split; [by rewrite ?Hb|done]].
        split; [by rewrite lookup_insert_eq|].
        intros k Hk. by rewrite lookup_insert_ne.
      + destruct (negb (String.eqb s "")); [|split; [by rewrite ?Hb|done]].
        split; [by rewrite lookup_insert_eq|].
        intros k Hk. by rewrite lookup_insert_ne.
      + rewrite Hfilter.
        destruct (filter (valid_binding batch) bindings) as [|b0 kept];
          cbn [length]; [rewrite bool_decide_eq_true_2 by done
                        |rewrite bool_decide_eq_false_2 by done].
        all: split; [by rewrite lookup_insert_eq|].
        all: intros k Hk; by rewrite lookup_insert_ne.
      + split; [by rewrite lookup_insert_eq|].
        intros k Hk. by rewrite lookup_insert_ne.
    - split; [by rewrite ?Hb|done]. }
  clearbody fixed1.
  cbn [prop]. rewrite (Hframe1 "containerId") by done.
  destruct (element !! "containerId") as [container|] eqn:Hc;
    cbn [default from_option id].
  - destruct (truthy container) eqn:Htruthy.
    + destruct (JSMap.get container elementMap) as [referent|] eqn:Hget.
      * assert (in_batch batch container) as Hin.
        { apply elementMap_get. fold elementMap. by rewrite Hget. }
        rewrite decide_True by done.
        split; [exact Hbound|]. split; [by rewrite Hframe1|].
        intros k Hk1 Hk2. by apply Hframe1.
      * assert (¬ in_batch batch container) as Hin.
        { rewrite <- elementMap_get. fold elementMap. rewrite Hget.
          by intros []. }
        rewrite decide_False by done.
        split; [|split; [by rewrite lookup_insert_eq|]].
        -- destruct (element !! "boundElements") as [[]|];
             by rewrite lookup_insert_ne.
        -- intros k Hk1 Hk2. rewrite lookup_insert_ne by done.
           by apply Hframe1.
    + split; [exact Hbound|]. split; [by rewrite Hframe1|].
      intros k Hk1 Hk2. by apply Hframe1.
  - cbn [truthy]. split; [exact Hbound|]. split; [by rewrite Hframe1|].
    intros k Hk1 Hk2. by apply Hframe1.
Qed.

Lemma validateAndFixBindings_sanitized (batch : list obj) :
  Forall2 (sanitized batch) batch (validateAndFixBindings batch).
Proof.
  unfold validateAndFixBindings.
  set (elementMap := JSMap.of_pairs _).
  assert (∀ l : list obj,
            Forall2 (sanitized batch) l (fix_bindings_of elementMap <$> l))
    as Hall; [|apply Hall].
  induction l as [|el l IH]; [constructor|].
  rewrite fmap_cons. constructor; [|exact IH].
  apply fix_bindings_of_sanitized.
Qed.
End Sanitation.

Section Reconciler.
Context `{External}.
Import Client.

End Reconciler.



(** ** The scenarios of the specification *)

(** The end-to-end scenario of the specification: create a rectangle,
    read it, move it, delete it, fail to read it. *)
Example create_read_update_delete :
  let created := post_elements (H:=sample_external) a_rectangle initial in
  let updated :=
    put_elements_id (H:=sample_external) "id-0" an_update_of_x created.1 in
  status_of created.2 = 200
  ∧ ids_of (JSMap.values (stateManager created.1)) = [VStr "id-0"]
  ∧ stored_version "id-0" created.1 = Some (VNum 1)
  ∧ (get_elements_id "id-0" created.1).2 = created.2
  ∧ status_of updated.2 = 200
  ∧ stored_version "id-0" updated.1 = Some (VNum 2)
  ∧ (λ element : obj, (prop (VObj element) "x", prop (VObj element) "y"))
      <$> JSMap.values (stateManager updated.1)
    = [(VNum 20, VNum 10)]
  ∧ (run (H:=sample_external)
       [ POST_elements a_rectangle; GET_elements_id "id-0";
         PUT_elements_id "id-0" an_update_of_x; DELETE_elements_id "id-0";
         GET_elements_id "id-0" ] initial).2
    = [200; 200; 200; 200; 404].
Proof. vm_compute. done. Qed.

(** The sync scenario of the specification: one ellipse named ["a"]. *)
Example sync_of_one_ellipse :
  let body :=
    VObj {[ "elements" :=
              VArr [ VObj {[ "id" := VStr "a"; "type" := VStr "ellipse";
                             "x" := VNum 0; "y" := VNum 0 ]} ] ]} in
  let synced :=
    post_elements_sync (H:=sample_external) body
      (post_elements (H:=sample_external) a_rectangle initial).1 in
  synced.2 = json_sync 1 "t4" 1 1
  ∧ ids_of (JSMap.values (stateManager synced.1)) = [VStr "a"]
  ∧ (∃ elements, (get_elements synced.1).2 = json_elements elements 1).
Proof. vm_compute. repeat split. by eexists. Qed.

(** ** The store as a map ([SingleRoomStateManager]) *)

Section StoreFacts.
Context {A : Type}.
Implicit Types (m : JSMap.t A) (k : value) (a : A).

Lemma same_value_zero_sym (x y : value) :
  same_value_zero x y = same_value_zero y x.
Proof.
  destruct x, y; simpl; try done.
  - apply bool_decide_ext. naive_solver.
  - apply Z.eqb_sym.
  - apply String.eqb_sym.
Qed.

Lemma get_None_keys k m :
  JSMap.get k m = None
  ↔ Forall (λ k', same_value_zero k' k = false) (JSMap.keys m).
Proof.
  unfold JSMap.keys. induction m as [|[k' a'] rest IH]; simpl.
  - split; [constructor|done].
  - rewrite Forall_cons. destruct (same_value_zero k' k); simpl.
    + split; [done|]. by intros [? _].
    + rewrite IH. tauto.
Qed.

Lemma keys_set k a m :
  JSMap.keys (JSMap.set k a m)
  = match JSMap.get k m with
    | Some _ => JSMap.keys m
    | None => JSMap.keys m ++ [k]
    end.
Proof.
  unfold JSMap.keys. induction m as [|[k' a'] rest IH]; [done|].
  cbn [JSMap.set JSMap.get].
  destruct (same_value_zero k' k); [done|].
  rewrite !fmap_cons, IH. by destruct (JSMap.get k rest).
Qed.

Lemma distinct_keys_set k a m :
  distinct_keys m → distinct_keys (JSMap.set k a m).
Proof.
  induction m as [|[k' a'] rest IH]; simpl.
  - intros _. split; [constructor|done].
  - intros [Hk' Hrest]. destruct (same_value_zero k' k) eqn:E; simpl.
    + done.
    + split; [|by apply IH]. rewrite keys_set.
      destruct (JSMap.get k rest); [done|].
      apply Forall_app. split; [done|]. by repeat constructor.
Qed.

Lemma keys_delete_sublist k m :
  JSMap.keys (JSMap.delete k m).2 `sublist_of` JSMap.keys m.
Proof.
  unfold JSMap.keys. induction m as [|[k' a'] rest IH]; simpl; [done|].
  destruct (same_value_zero k' k); simpl.
  - by apply sublist_cons.
  - destruct (JSMap.delete k rest) as [found rest']. simpl in *.
    by apply sublist_skip.
Qed.

Lemma distinct_keys_delete k m :
  distinct_keys m → distinct_keys (JSMap.delete k m).2.
Proof.
  induction m as [|[k' a'] rest IH]; simpl; [done|].
  intros [Hk' Hrest]. destruct (same_value_zero k' k); simpl; [done|].
  pose proof (keys_delete_sublist k rest) as Hsub.
  destruct (JSMap.delete k rest) as [found rest']. simpl in *.
  split; [|by apply IH]. rewrite Forall_forall in Hk' |- *.
  intros k0 Hk0. apply Hk'. by eapply elem_of_sublist.
Qed.

Lemma delete_found k m :
  (JSMap.delete k m).1 = true ↔ is_Some (JSMap.get k m).
Proof.
  induction m as [|[k' a'] rest IH]; simpl.
  - split; [done|]. by intros [].
  - destruct (same_value_zero k' k); simpl; [by split; eauto|].
    destruct (JSMap.delete k rest) as [found rest']. simpl in *. done.
Qed.

Lemma get_delete_eq k m :
  distinct_keys m → JSMap.get k (JSMap.delete k m).2 = None.
Proof.
  induction m as [|[k' a'] rest IH]; simpl; [done|].
  intros [Hk' Hrest]. destruct (same_value_zero k' k) eqn:E; simpl.
  - apply same_value_zero_eq in E as ->. apply get_None_keys.
    eapply Forall_impl; [exact Hk'|]. intros k'. simpl.
    by rewrite same_value_zero_sym.
  - specialize (IH Hrest).
    destruct (JSMap.delete k rest) as [found rest']. simpl in *.
    by rewrite E.
Qed.

Lemma get_delete_ne k k' m :
  same_value_zero k k' = false →
  JSMap.get k' (JSMap.delete k m).2 = JSMap.get k' m.
Proof.
  intros Hne. induction m as [|[k0 a0] rest IH]; simpl; [done|].
  destruct (same_value_zero k0 k) eqn:E; simpl.
  - apply same_value_zero_eq in E as ->. by rewrite Hne.
  - destruct (JSMap.delete k rest) as [found rest']. simpl in *.
    by rewrite IH.
Qed.

Lemma size_set k a m :
  JSMap.size (JSMap.set k a m)
  = match JSMap.get k m with
    | Some _ => JSMap.size m
    | None => S (JSMap.size m)
    end.
Proof.
  unfold JSMap.size. induction m as [|[k' a'] rest IH]; [done|].
  cbn [JSMap.set JSMap.get].
  destruct (same_value_zero k' k); [done|].
  cbn [length]. rewrite IH. by destruct (JSMap.get k rest).
Qed.

Lemma size_delete k m :
  JSMap.size m
  = (if (JSMap.delete k m).1 then 1 else 0) + JSMap.size (JSMap.delete k m).2.
Proof.
  unfold JSMap.size. induction m as [|[k' a'] rest IH]; simpl; [done|].
  destruct (same_value_zero k' k); simpl; [done|].
  destruct (JSMap.delete k rest) as [[] rest']; simpl in *; lia.
Qed.

End StoreFacts.

Section StoreTheorems.
Import SingleRoomStateManager.

(** X1: what [setElement] stores under a key that a [Map] compares by
    value is what [getElement] returns for it; the other keys keep their
    records; and the store grows by one exactly when the key is new. *)
Theorem setElement_then_getElement k element (store : SingleRoomStateManager.t) :
  primitive k →
  getElement k (setElement k element store) = Some element
  ∧ (∀ k', same_value_zero k k' = false →
       getElement k' (setElement k element store) = getElement k' store)
  ∧ JSMap.size (setElement k element store)
    = match getElement k store with
      | Some _ => JSMap.size store
      | None => S (JSMap.size store)
      end.
Proof.
  intros Hk. unfold getElement, setElement. split; [by apply get_set_eq|].
  split; [|apply size_set].
  intros k' Hne. apply get_set_ne; [done|]. by rewrite same_value_zero_sym.
Qed.

(** X2: on a store without repeated keys, [deleteElement] answers [true]
    exactly when the key had a record; afterwards the key has none, the
    other keys keep theirs, and the size dropped by one if a record was
    removed and is unchanged otherwise. *)
Theorem deleteElement_removes k (store : SingleRoomStateManager.t) :
  distinct_keys store →
  ((deleteElement k store).1 = true ↔ is_Some (getElement k store))
  ∧ getElement k (deleteElement k store).2 = None
  ∧ (∀ k', same_value_zero k k' = false →
       getElement k' (deleteElement k store).2 = getElement k' store)
  ∧ JSMap.size store
    = (if (deleteElement k store).1 then 1 else 0)
      + JSMap.size (deleteElement k store).2
  ∧ distinct_keys (deleteElement k store).2.
Proof.
  intros Hd. unfold getElement, deleteElement.
  split; [apply delete_found|]. split; [by apply get_delete_eq|].
  split; [intros k' Hne; by apply get_delete_ne|].
  split; [apply size_delete | by apply distinct_keys_delete].
Qed.

End StoreTheorems.

Lemma setElement_then_getElement_witness :
  primitive (VStr "b")
  ∧ SingleRoomStateManager.getElement (VStr "b")
      (SingleRoomStateManager.setElement (VStr "b") ∅ a_small_store) = Some ∅.
Proof.
  split; [exact I|].
  exact (proj1 (setElement_then_getElement (VStr "b") ∅ a_small_store I)).
Defined.

Lemma deleteElement_removes_witness :
  distinct_keys a_small_store
  ∧ SingleRoomStateManager.getElement (VStr "a")
      (SingleRoomStateManager.deleteElement (VStr "a") a_small_store).2 = None.
Proof.
  assert (distinct_keys a_small_store) as Hd by (vm_compute; repeat constructor).
  split; [exact Hd|].
  exact (proj1 (proj2 (deleteElement_removes (VStr "a") a_small_store Hd))).
Defined.

Section StoreInvariant.
Context `{External}.

Lemma distinct_keys_post_elements body w :
  distinct_keys (stateManager w) →
  distinct_keys (stateManager (post_elements body w).1).
Proof.
  intros Hw. unfold post_elements.
  destruct (Zod.parse_object _ _) as [params|]; [|done].
  destruct (truthy _); simpl; by apply distinct_keys_set.
Qed.

Lemma distinct_keys_put_elements_id id body w :
  distinct_keys (stateManager w) →
  distinct_keys (stateManager (put_elements_id id body w).1).
Proof.
  intros Hw.
  destruct (decide (status_of (put_elements_id id body w).2 = 200)) as [Hok|Hno].
  - apply put_elements_id_inv in Hok as (updates & existing & _ & _ & _ & -> & _).
    by apply distinct_keys_set.
  - by rewrite put_elements_id_rejected.
Qed.

Lemma distinct_keys_delete_elements_id id w :
  distinct_keys (stateManager w) →
  distinct_keys (stateManager (delete_elements_id id w).1).
Proof.
  intros Hw. unfold delete_elements_id. destruct (negb _); [done|].
  destruct (SingleRoomStateManager.getElement _ _); [|done].
  simpl. by apply distinct_keys_delete.
Qed.

Lemma distinct_keys_batch_forEach entries created w :
  distinct_keys (stateManager w) →
  distinct_keys (stateManager (batch_forEach entries created w).1).
Proof.
  revert created w. induction entries as [|e es IH]; intros created w Hw; [done|].
  simpl. destruct (Zod.parse_object _ e) as [params|]; [|done].
  apply IH. by apply distinct_keys_set.
Qed.

Lemma distinct_keys_post_elements_batch body w :
  distinct_keys (stateManager w) →
  distinct_keys (stateManager (post_elements_batch body w).1).
Proof.
  intros Hw. unfold post_elements_batch. destruct (nullish body); [done|].
  destruct (prop body "elements"); try done.
  pose proof (distinct_keys_batch_forEach items [] w Hw) as Hloop.
  by destruct (batch_forEach items [] w) as [w' [created|]].
Qed.

Lemma distinct_keys_stored pairs (store : JSMap.t obj) :
  distinct_keys store → distinct_keys (stored pairs store).
Proof.
  unfold stored. revert store.
  induction pairs as [|[k a] ps IH]; intros store Hs; [done|].
  simpl. apply IH. by apply distinct_keys_set.
Qed.

Lemma distinct_keys_post_elements_sync body w :
  distinct_keys (stateManager w) →
  distinct_keys (stateManager (post_elements_sync body w).1).
Proof.
  intros Hw. unfold post_elements_sync. destruct (nullish body); [done|].
  destruct (nullish (prop body "elements")); [done|].
  destruct (prop body "elements") as [| |b|n|s|payload|m]; try done.
  unfold sync_forEach.
  destruct (sync_loop_spec (prop body "timestamp") payload
              (with_store (SingleRoomStateManager.clearElements
                             (stateManager w)) w) [])
    as (pairs & _ & Hs & _).
  destruct (foldl _ _ payload) as [w1 processed]. simpl in *.
  rewrite Hs. by apply distinct_keys_stored.
Qed.

Lemma distinct_keys_post_elements_from_mermaid body w :
  distinct_keys (stateManager w) →
  distinct_keys (stateManager (post_elements_from_mermaid body w).1).
Proof.
  intros Hw. unfold post_elements_from_mermaid. destruct (nullish body); [done|].
  destruct (prop body "mermaidDiagram"); try done. by destruct (truthy _).
Qed.

Lemma distinct_keys_of_reachable w :
  reachable w → distinct_keys (stateManager w).
Proof.
  induction 1 as [|e w Hw IH]; [done|].
  destruct e as [req|h|h|h state]; [|exact IH..].
  destruct req; cbn [step handle];
    [ exact IH
    | by apply distinct_keys_post_elements
    | by apply distinct_keys_put_elements_id
    | by apply distinct_keys_delete_elements_id
    | exact IH
    | unfold get_elements_id;
      destruct (negb _); [exact IH|];
      by destruct (SingleRoomStateManager.getElement _ _)
    | by apply distinct_keys_post_elements_batch
    | by apply distinct_keys_post_elements_from_mermaid
    | by apply distinct_keys_post_elements_sync ].
Qed.

End StoreInvariant.

(** ** The registry as a set ([SingleRoomClientManager]) *)

Section RegistryFacts.
Import SingleRoomClientManager.

Lemma existsb_same_socket ws (clients : list WebSocket) :
  existsb (same_socket ws) clients = true ↔ handle ws ∈ handles clients.
Proof.
  unfold handles. rewrite existsb_exists, list_elem_of_fmap. split.
  - intros (c & Hin & Hc). exists c.
    apply bool_decide_eq_true in Hc. split; [done|]. by apply list_elem_of_In.
  - intros (c & Hc & Hin). exists c. split; [by apply list_elem_of_In|].
    by apply bool_decide_eq_true.
Qed.

Lemma handles_addClient ws (clients : list WebSocket) :
  handles (addClient ws clients)
  = if decide (handle ws ∈ handles clients) then handles clients
    else handles clients ++ [handle ws].
Proof.
  unfold addClient. destruct (existsb _ _) eqn:E.
  - apply existsb_same_socket in E. by rewrite decide_True.
  - rewrite decide_False; [unfold handles; by rewrite fmap_app|].
    rewrite <- existsb_same_socket. by rewrite E.
Qed.

Lemma NoDup_handles_addClient ws (clients : list WebSocket) :
  NoDup (handles clients) → NoDup (handles (addClient ws clients)).
Proof.
  intros Hnd. rewrite handles_addClient. case_decide as Hin; [done|].
  apply NoDup_app. split; [done|]. split; [|apply NoDup_singleton].
  intros h Hh Heq%list_elem_of_singleton. by subst h.
Qed.

(** X4: [addClient] is the insertion of a set: the socket is registered
    afterwards, the sockets that were registered still are, identities
    stay distinct, and adding a socket a second time changes nothing. *)
Theorem addClient_is_set_insertion ws (clients : list WebSocket) :
  NoDup (handles clients) →
  NoDup (handles (addClient ws clients))
  ∧ handle ws ∈ handles (addClient ws clients)
  ∧ (∀ c, c ∈ clients → c ∈ addClient ws clients)
  ∧ addClient ws (addClient ws clients) = addClient ws clients.
Proof.
  intros Hnd. rewrite handles_addClient. unfold addClient.
  destruct (existsb (same_socket ws) clients) eqn:E.
  - apply existsb_same_socket in E as Hin. rewrite decide_True by done.
    by rewrite E.
  - assert (handle ws ∉ handles clients) as Hnin.
    { rewrite <- existsb_same_socket. by rewrite E. }
    rewrite decide_False by done. split; [|split; [|split]].
    + pose proof (NoDup_handles_addClient ws clients Hnd) as Hnd'.
      by rewrite handles_addClient, decide_False in Hnd'.
    + apply elem_of_app. right. by apply list_elem_of_singleton.
    + intros c Hc. apply elem_of_app. by left.
    + rewrite existsb_app. simpl. unfold same_socket at 2.
      rewrite bool_decide_eq_true_2 by done. by rewrite orb_true_r.
Qed.

(** X5: [removeClient] takes the socket out and nothing else, and undoes
    the [addClient] of a socket that was not registered. *)
Theorem removeClient_removes ws (clients : list WebSocket) :
  (handle ws ∉ handles (removeClient ws clients))
  ∧ (∀ c, c ∈ removeClient ws clients ↔ c ∈ clients ∧ handle c ≠ handle ws)
  ∧ (handle ws ∉ handles clients →
     removeClient ws (addClient ws clients) = clients).
Proof.
  unfold removeClient. split; [|split].
  - unfold handles. rewrite list_elem_of_fmap.
    intros (c & Hc & Hin%list_elem_of_filter). by destruct Hin.
  - intros c. rewrite list_elem_of_filter. tauto.
  - intros Hnin. unfold addClient.
    assert (existsb (same_socket ws) clients = false) as ->.
    { destruct (existsb _ _) eqn:E; [|done].
      by apply existsb_same_socket in E. }
    rewrite filter_app, filter_cons_False, filter_nil, app_nil_r by (by intros []).
    clear -Hnin. induction clients as [|c cs IH]; [done|].
    unfold handles in Hnin. rewrite fmap_cons, not_elem_of_cons in Hnin.
    destruct Hnin as [Hne Hnin].
    rewrite filter_cons_True by done. f_equal. by apply IH.
Qed.

Lemma handles_broadcast message excluded (clients : list WebSocket) :
  handles (broadcast message excluded clients) = handles clients.
Proof.
  unfold handles, broadcast. rewrite <- list_fmap_compose.
  apply list_fmap_ext. intros i c _. simpl.
  by destruct (negb _ && _).
Qed.

Lemma readyStates_broadcast message excluded (clients : list WebSocket) :
  readyState <$> broadcast message excluded clients = readyState <$> clients.
Proof.
  unfold broadcast. rewrite <- list_fmap_compose.
  apply list_fmap_ext. intros i c _. simpl.
  by destruct (negb _ && _).
Qed.

(** X6: a broadcast never adds, removes or reorders connections and
    never changes a [readyState]; a connection that is not open, or that
    is the excluded one, is sent nothing, and every other one is sent
    the message and nothing else. *)
Theorem broadcast_keeps_the_registry message excluded
    (clients : list WebSocket) :
  handles (broadcast message excluded clients) = handles clients
  ∧ readyState <$> broadcast message excluded clients = readyState <$> clients
  ∧ Forall2
      (λ c c', if decide (readyState c = 1 ∧ is_excluded excluded c = false)
               then received message c c'
               else c' = c)
      clients (broadcast message excluded clients).
Proof.
  split; [apply handles_broadcast|].
  split; [apply readyStates_broadcast|]. unfold broadcast.
  induction clients as [|c cs IH]; [constructor|].
  rewrite fmap_cons. constructor; [|exact IH]. simpl.
  destruct (is_excluded excluded c); simpl.
  - rewrite decide_False; [done|]. by intros [_ ?].
  - case_bool_decide; [rewrite decide_True|rewrite decide_False]; try done.
    by intros [? _].
Qed.

Lemma broadcast_excluding_absent message ex (clients : list WebSocket) :
  handle ex ∉ handles clients →
  deliveries clients (broadcast message (Some ex) clients)
  = open_connections clients.
Proof.
  unfold deliveries, open_connections, broadcast, handles.
  induction clients as [|c cs IH]; [done|].
  rewrite !fmap_cons, not_elem_of_cons, filter_cons. intros [Hne Hnin].
  simpl in IH |- *. rewrite IH by done.
  unfold same_socket. rewrite bool_decide_eq_false_2 by done. simpl.
  case_bool_decide.
  - rewrite decide_True by done. simpl. rewrite length_app. simpl. lia.
  - rewrite decide_False by done. simpl. lia.
Qed.

(** X7: with distinct identities, a broadcast that excludes a registered
    open connection reaches every open connection but that one: N - 1
    deliveries for N open connections. *)
Theorem broadcast_excluding_one message ex (clients : list WebSocket) :
  NoDup (handles clients) →
  ex ∈ clients →
  readyState ex = 1 →
  deliveries clients (broadcast message (Some ex) clients) + 1
  = open_connections clients.
Proof.
  intros Hnd Hin Hopen. induction clients as [|c cs IH]; [by inversion Hin|].
  unfold handles in Hnd. rewrite fmap_cons in Hnd.
  apply NoDup_cons in Hnd as [Hc Hnd].
  apply elem_of_cons in Hin as [->|Hin].
  - pose proof (broadcast_excluding_absent message c cs Hc) as Hrest.
    unfold deliveries, open_connections, broadcast in *.
    rewrite fmap_cons, filter_cons, decide_True by done.
    simpl in Hrest |- *. rewrite Hrest.
    unfold same_socket. rewrite bool_decide_eq_true_2 by done. simpl. lia.
  - specialize (IH Hnd Hin).
    assert (handle c ≠ handle ex) as Hne.
    { intros Heq. apply Hc. rewrite Heq. by apply list_elem_of_fmap_2. }
    unfold deliveries, open_connections, broadcast in *.
    rewrite fmap_cons, filter_cons. simpl in IH |- *.
    unfold same_socket at 1. rewrite bool_decide_eq_false_2 by done. simpl.
    case_bool_decide.
    + rewrite decide_True by done. simpl. rewrite length_app. simpl. lia.
    + rewrite decide_False by done. simpl. lia.
Qed.

End RegistryFacts.

Lemma addClient_is_set_insertion_witness :
  NoDup (handles three_connections)
  ∧ SingleRoomClientManager.addClient (socket 2 1)
      (SingleRoomClientManager.addClient (socket 2 1) three_connections)
    = SingleRoomClientManager.addClient (socket 2 1) three_connections.
Proof.
  assert (NoDup (handles three_connections)) as Hnd
    by (apply (bool_decide_unpack (NoDup (handles three_connections))); vm_compute; exact I).
  split; [exact Hnd|].
  exact (proj2 (proj2 (proj2
    (addClient_is_set_insertion (socket 2 1) three_connections Hnd)))).
Defined.

Lemma broadcast_excluding_one_witness :
  (NoDup (handles three_connections)
   ∧ socket 3 1 ∈ three_connections
   ∧ SingleRoomClientManager.readyState (socket 3 1) = 1)
  ∧ deliveries three_connections
      (SingleRoomClientManager.broadcast (element_deleted "a")
         (Some (socket 3 1)) three_connections) + 1
    = open_connections three_connections.
Proof.
  assert (NoDup (handles three_connections)) as Hnd
    by (apply (bool_decide_unpack (NoDup (handles three_connections))); vm_compute; exact I).
  assert (socket 3 1 ∈ three_connections) as Hin
    by (unfold three_connections; rewrite !elem_of_cons; auto).
  split; [done|].
  exact (broadcast_excluding_one (element_deleted "a") (socket 3 1)
           three_connections Hnd Hin eq_refl).
Defined.

(** ** What a request does to the world *)

Section Requests.
Context `{External}.

Lemma post_elements_rejected body w :
  status_of (post_elements body w).2 ≠ 200 → (post_elements body w).1 = w.
Proof.
  unfold post_elements. destruct (Zod.parse_object _ _) as [params|]; [|done].
  by destruct (truthy _).
Qed.

Lemma delete_elements_id_rejected id w :
  status_of (delete_elements_id id w).2 ≠ 200 → (delete_elements_id id w).1 = w.
Proof.
  unfold delete_elements_id. destruct (negb _); [done|].
  by destruct (SingleRoomStateManager.getElement _ _).
Qed.

Lemma post_elements_from_mermaid_rejected body w :
  status_of (post_elements_from_mermaid body w).2 ≠ 200 →
  (post_elements_from_mermaid body w).1 = w.
Proof.
  unfold post_elements_from_mermaid. destruct (nullish body); [done|].
  destruct (prop body "mermaidDiagram"); try done. by destruct (truthy _).
Qed.

Lemma post_elements_sync_rejected body w :
  status_of (post_elements_sync body w).2 ≠ 200 →
  (post_elements_sync body w).1 = w.
Proof.
  unfold post_elements_sync. destruct (nullish body); [done|].
  destruct (nullish (prop body "elements")); [done|].
  destruct (prop body "elements"); try done.
  destruct (sync_forEach _ _ _) as [w1 processed]. done.
Qed.

Lemma post_elements_batch_rejected_clients body w :
  status_of (post_elements_batch body w).2 ≠ 200 →
  clientManager (post_elements_batch body w).1 = clientManager w.
Proof.
  unfold post_elements_batch. destruct (nullish body); [done|].
  destruct (prop body "elements") as [| |b|n|s|entries|m]; try done.
  pose proof (batch_forEach_clients entries [] w) as Hcl.
  by destruct (batch_forEach entries [] w) as [w' [created|]].
Qed.

(** X8: a request that is answered with an error has broadcast nothing;
    and unless it is a batch creation, it has left the whole world, the
    store included, as it was. *)
Theorem rejected_request_changes_nothing req w :
  status_of (handle req w).2 ≠ 200 →
  clientManager (handle req w).1 = clientManager w
  ∧ (is_batch req = false → (handle req w).1 = w).
Proof.
  intros Hno.
  assert (is_batch req = false → (handle req w).1 = w) as Hworld.
  { destruct req; cbn [handle is_batch] in *; try done; intros _.
    - by apply post_elements_rejected.
    - by apply put_elements_id_rejected.
    - by apply delete_elements_id_rejected.
    - unfold get_elements_id in *. destruct (negb _); [done|].
      by destruct (SingleRoomStateManager.getElement _ _).
    - by apply post_elements_from_mermaid_rejected.
    - by apply post_elements_sync_rejected. }
  split; [|exact Hworld].
  destruct (is_batch req) eqn:Hb; [|by rewrite Hworld].
  destruct req; try done. by apply post_elements_batch_rejected_clients.
Qed.

Lemma sync_clients body w :
  clientManager (post_elements_sync body w).1 = clientManager w
  ∨ ∃ message,
      clientManager (post_elements_sync body w).1
      = SingleRoomClientManager.broadcast message None (clientManager w).
Proof.
  unfold post_elements_sync. destruct (nullish body); [by left|].
  destruct (nullish (prop body "elements")); [by left|].
  destruct (prop body "elements") as [| |b|n|s|payload|m]; try by left.
  unfold sync_forEach.
  destruct (sync_loop_spec (prop body "timestamp") payload
              (with_store (SingleRoomStateManager.clearElements
                             (stateManager w)) w) [])
    as (pairs & _ & _ & Hc & _).
  destruct (foldl _ _ payload) as [w1 processed]. simpl in *.
  right. rewrite Hc. by eexists.
Qed.

(** One request makes at most one broadcast: afterwards the registry is
    as before, or it is the registry after one message was broadcast
    with nobody excluded. *)
Lemma request_clients req w :
  clientManager (handle req w).1 = clientManager w
  ∨ ∃ message,
      clientManager (handle req w).1
      = SingleRoomClientManager.broadcast message None (clientManager w).
Proof.
  destruct req; cbn [handle].
  - by left.
  - unfold post_elements.
    destruct (Zod.parse_object _ _) as [params|]; [|by left].
    destruct (truthy _); right; by eexists.
  - destruct (decide (status_of (put_elements_id id body w).2 = 200))
      as [Hok|Hno].
    + apply put_elements_id_inv in Hok as (? & ? & _ & _ & _ & _ & ->).
      right. by eexists.
    + left. by rewrite put_elements_id_rejected.
  - unfold delete_elements_id. destruct (negb _); [by left|].
    destruct (SingleRoomStateManager.getElement _ _); [|by left].
    right. by eexists.
  - by left.
  - unfold get_elements_id. destruct (negb _); [by left|].
    destruct (SingleRoomStateManager.getElement _ _); by left.
  - unfold post_elements_batch. destruct (nullish body); [by left|].
    destruct (prop body "elements") as [| |b|n|s|entries|m]; try by left.
    pose proof (batch_forEach_clients entries [] w) as Hcl.
    destruct (batch_forEach entries [] w) as [w' [created|]]; simpl in *.
    + right. rewrite Hcl. by eexists.
    + by left.
  - unfold post_elements_from_mermaid. destruct (nullish body); [by left|].
    destruct (prop body "mermaidDiagram"); try by left.
    destruct (truthy _); [|by left]. right. by eexists.
  - apply sync_clients.
Qed.

(** X9: whatever the request, it registers and deregisters nobody and
    changes no [readyState]; and either it leaves every connection as it
    was, or there is one message that every open connection is sent, and
    nothing else, while every other connection is left as it was. *)
Theorem request_broadcasts_at_most_once req w :
  handles (clientManager (handle req w).1) = handles (clientManager w)
  ∧ SingleRoomClientManager.readyState <$> clientManager (handle req w).1
    = SingleRoomClientManager.readyState <$> clientManager w
  ∧ (clientManager (handle req w).1 = clientManager w
     ∨ ∃ message,
         Forall2
           (λ c c', if decide (SingleRoomClientManager.readyState c = 1)
                    then received message c c' else c' = c)
           (clientManager w) (clientManager (handle req w).1)
         ∧ deliveries (clientManager w) (clientManager (handle req w).1)
           = open_connections (clientManager w)).
Proof.
  destruct (request_clients req w) as [->|(message & ->)].
  - split; [done|]. split; [done|]. by left.
  - split; [apply handles_broadcast|].
    split; [apply readyStates_broadcast|].
    right. exists message.
    split; [apply broadcast_all_pointwise|apply broadcast_all_deliveries].
Qed.

End Requests.

(** ** The handlers, one by one *)

Section HandlerFacts.
Context `{External}.

Lemma delete_elements_id_inv id w :
  status_of (delete_elements_id id w).2 = 200 →
  id ≠ ""
  ∧ is_Some (SingleRoomStateManager.getElement (VStr id) (stateManager w))
  ∧ stateManager (delete_elements_id id w).1
    = (SingleRoomStateManager.deleteElement (VStr id) (stateManager w)).2
  ∧ clientManager (delete_elements_id id w).1
    = SingleRoomClientManager.broadcast (element_deleted id) None
        (clientManager w).
Proof.
  unfold delete_elements_id. simpl.
  destruct (String.eqb_spec id "") as [->|Hne]; simpl; [done|].
  destruct (SingleRoomStateManager.getElement _ _) as [el|] eqn:Hget; [|done].
  intros _. split; [done|]. split; [by eexists|]. done.
Qed.

(** X11: in a reachable world, an accepted delete removes the record of
    the identifier and no other: the store holds no record under the
    identifier afterwards and is one record smaller, every other key
    keeps its record, and the open connections are sent [element_deleted]
    with the identifier. *)
Theorem delete_removes_the_record id w :
  reachable w →
  status_of (delete_elements_id id w).2 = 200 →
  SingleRoomStateManager.getElement (VStr id)
    (stateManager (delete_elements_id id w).1) = None
  ∧ S (JSMap.size (stateManager (delete_elements_id id w).1))
    = JSMap.size (stateManager w)
  ∧ (∀ k, same_value_zero (VStr id) k = false →
       SingleRoomStateManager.getElement k
         (stateManager (delete_elements_id id w).1)
       = SingleRoomStateManager.getElement k (stateManager w))
  ∧ clientManager (delete_elements_id id w).1
    = SingleRoomClientManager.broadcast (element_deleted id) None
        (clientManager w).
Proof.
  intros Hw (Hid & Hsome & Hstore & Hcl)%delete_elements_id_inv.
  pose proof (distinct_keys_of_reachable w Hw) as Hd.
  rewrite Hstore. unfold SingleRoomStateManager.deleteElement,
    SingleRoomStateManager.getElement in *.
  split; [|split; [|split]].
  - by apply get_delete_eq.
  - apply delete_found in Hsome.
    rewrite (size_delete (VStr id) (stateManager w)), Hsome. done.
  - intros k Hk. by apply get_delete_ne.
  - done.
Qed.

Lemma object_fields_checked (m : obj) shape out k sk :
  object_fields m shape = Some out →
  shape_lookup shape k = Some sk →
  is_Some (Zod.parse sk (default VUndef (m !! k))).
Proof.
  revert out. induction shape as [|[k' sk'] rest IH]; intros out; simpl; [done|].
  destruct (Zod.parse sk' (default VUndef (m !! k'))) as [r|] eqn:Hr; [|done].
  destruct (object_fields m rest) as [acc|]; [|done]. intros _.
  destruct (String.eqb_spec k' k) as [->|_].
  - intros [= <-]. by rewrite Hr.
  - by apply (IH acc).
Qed.

Lemma new_element_id key params w0 :
  (new_element key params w0).1 !! "id" = Some (default key (params !! "id")).
Proof.
  rewrite new_element_lookup
    by (unfold server_fields; rewrite !elem_of_cons, elem_of_nil;
        intuition discriminate).
  by destruct (params !! "id").
Qed.

Lemma create_params_id_of_body body params :
  Zod.parse_object CreateElementSchema body = Some params →
  params !! "id" = own_props body !! "id"
  ∧ match own_props body !! "id" with
    | Some (VStr _) | Some VUndef | None => True
    | _ => False
    end.
Proof.
  intros Hparse.
  pose proof (parse_object_lookup _ _ _ "id" Hparse) as Hid.
  pose proof Hparse as (m & -> & Hm)%parse_object_inv.
  pose proof (object_fields_checked m _ _ "id" _ Hm eq_refl) as [r Hr].
  simpl in Hid, Hr |- *. rewrite Hid.
  destruct (m !! "id") as [[| |b|n|s|l|fields]|]; simpl in *; done.
Qed.

Lemma creation_key_spec body params w :
  Zod.parse_object CreateElementSchema body = Some params →
  truthy (prop (VObj params) "id") = supplies_id body
  ∧ (if truthy (prop (VObj params) "id") then prop (VObj params) "id"
     else VStr (generateId_nth (ids_drawn w)))
    = VStr (creation_key body w).
Proof.
  intros Hparse.
  destruct (create_params_id_of_body body params Hparse) as [Hid Hshape].
  unfold supplies_id, creation_key. cbn [prop]. rewrite Hid.
  destruct (own_props body !! "id") as [[| |b|n|s|l|fields]|]; try done.
  cbn [default from_option id truthy].
  by destruct (String.eqb_spec s "").
Qed.

(** X12: an accepted create stores the record it answers with under
    the key [params.id || generateId()]: the [id] of the body when that is
    a non-empty string, the next generated identifier otherwise, and only
    then is an identifier drawn.  The [id] field of the record is the
    [id] of the body when the body has one, so that it is not the key
    when the body gives the empty string, and the key otherwise. *)
Theorem create_stores_under_its_key body w :
  status_of (post_elements body w).2 = 200 →
  ∃ element,
    (post_elements body w).2 = json_element element
    ∧ SingleRoomStateManager.getElement (VStr (creation_key body w))
        (stateManager (post_elements body w).1) = Some element
    ∧ element !! "id"
      = Some (default (VStr (creation_key body w)) (own_props body !! "id"))
    ∧ ids_drawn (post_elements body w).1
      = (if supplies_id body then ids_drawn w else S (ids_drawn w)).
Proof.
  intros Hok. unfold post_elements in Hok |- *.
  destruct (Zod.parse_object CreateElementSchema body) as [params|] eqn:Hparse;
    [|done].
  clear Hok.
  destruct (creation_key_spec body params w Hparse) as [Htruthy Hkey].
  destruct (create_params_id_of_body body params Hparse) as [Hid _].
  rewrite <- Htruthy, <- Hid.
  exists (new_element (VStr (creation_key body w)) params w).1.
  destruct (truthy (prop (VObj params) "id")).
  - rewrite Hkey.
    split; [done|]. split; [|split; [apply new_element_id|done]].
    unfold SingleRoomStateManager.getElement. by apply get_set_eq.
  - injection Hkey as <-.
    split; [done|]. split; [|split; [apply new_element_id|done]].
    unfold SingleRoomStateManager.getElement. by apply get_set_eq.
Qed.


(** X13: an accepted create has passed the schema: the body is an
    object whose [type] is one of the element types and whose [x] and [y]
    are numbers, and the created record carries these three as they were
    submitted. *)
Theorem created_element_is_valid body w :
  status_of (post_elements body w).2 = 200 →
  ∃ element t x y,
    (post_elements body w).2 = json_element element
    ∧ t ∈ EXCALIDRAW_ELEMENT_TYPES
    ∧ own_props body !! "type" = Some (VStr t)
    ∧ own_props body !! "x" = Some (VNum x)
    ∧ own_props body !! "y" = Some (VNum y)
    ∧ element !! "type" = Some (VStr t)
    ∧ element !! "x" = Some (VNum x)
    ∧ element !! "y" = Some (VNum y).
Proof.
  intros (params & s & Hparse & _ & Hresp & _)%post_elements_inv.
  pose proof Hparse as (m & -> & Hm)%parse_object_inv.
  pose proof (parse_object_lookup _ _ _ "type" Hparse) as Pt.
  pose proof (parse_object_lookup _ _ _ "x" Hparse) as Px.
  pose proof (parse_object_lookup _ _ _ "y" Hparse) as Py.
  destruct (object_fields_checked m _ _ "type" _ Hm eq_refl) as [rt Ht].
  destruct (object_fields_checked m _ _ "x" _ Hm eq_refl) as [rx Hx].
  destruct (object_fields_checked m _ _ "y" _ Hm eq_refl) as [ry Hy].
  simpl in Pt, Px, Py, Ht, Hx, Hy |- *.
  destruct (m !! "type") as [[| | | |t| |]|]; simpl in *; try done.
  destruct (m !! "x") as [[| | |x| | |]|]; simpl in *; try done.
  destruct (m !! "y") as [[| | |y| | |]|]; simpl in *; try done.
  case_bool_decide as Hin; [|done].
  exists (new_element (VStr s) params w).1, t, x, y.
  rewrite !new_element_lookup, Pt, Px, Py by (by apply not_server_field).
  done.
Qed.

Lemma size_stored_le pairs (store : JSMap.t obj) :
  JSMap.size (stored pairs store) ≤ JSMap.size store + length pairs.
Proof.
  unfold stored. revert store.
  induction pairs as [|[k a] ps IH]; intros store; simpl; [lia|].
  etrans; [apply IH|]. rewrite size_set.
  destruct (JSMap.get k store); lia.
Qed.

(** X14: a full sync of an array is always accepted; [null] entries are
    skipped: the response and the one [elements_synced] broadcast count
    the entries that are not [null], [beforeCount] is the size of the
    store before, and [afterCount], the size of the store after, is at
    most the count. *)
Theorem sync_skips_null_entries (fields : obj) payload w :
  fields !! "elements" = Some (VArr payload) →
  ∃ broadcastAt syncedAt,
    (post_elements_sync (VObj fields) w).2
    = json_sync (length (filter (λ e, nullish e = false) payload)) syncedAt
        (JSMap.size (stateManager w))
        (JSMap.size (stateManager (post_elements_sync (VObj fields) w).1))
    ∧ JSMap.size (stateManager (post_elements_sync (VObj fields) w).1)
      ≤ length (filter (λ e, nullish e = false) payload)
    ∧ clientManager (post_elements_sync (VObj fields) w).1
      = SingleRoomClientManager.broadcast
          (elements_synced (length (filter (λ e, nullish e = false) payload))
             broadcastAt "manual_sync")
          None (clientManager w).
Proof.
  intros Hel.
  destruct (post_elements_sync_inv fields payload w Hel)
    as (pairs & broadcastAt & syncedAt & Hresp & Hstore & Hcl & Hall & _).
  apply Forall2_length in Hall. exists broadcastAt, syncedAt.
  rewrite Hresp, Hstore, Hcl, Hall. split; [done|]. split; [|done].
  pose proof (size_stored_le pairs []) as Hle. simpl in Hle. done.
Qed.

Lemma batch_forEach_succeeds entries : ∀ created w,
  Forall valid_entry entries →
  is_Some (batch_forEach entries created w).2
  ∧ ids_drawn (batch_forEach entries created w).1
    = ids_drawn w + length entries.
Proof.
  induction entries as [|e es IH]; intros created w Hall; simpl.
  - split; [by eexists|lia].
  - apply Forall_cons in Hall as [[params Hp] Hall]. rewrite Hp.
    edestruct IH as [Hs Hi]; [exact Hall|]. split; [exact Hs|].
    rewrite Hi. simpl. lia.
Qed.

(** X15: a batch whose [elements] is an array is accepted exactly when
    every entry passes the creation schema; it then answers with one
    record per entry, has drawn one identifier per entry, and has made
    one broadcast, of all the records. *)
Theorem batch_accepts_iff_all_valid (fields : obj) entries w :
  fields !! "elements" = Some (VArr entries) →
  (status_of (post_elements_batch (VObj fields) w).2 = 200
   ↔ Forall valid_entry entries)
  ∧ (Forall valid_entry entries →
     ∃ created,
       (post_elements_batch (VObj fields) w).2
       = json_elements created (length entries)
       ∧ length created = length entries
       ∧ ids_drawn (post_elements_batch (VObj fields) w).1
         = ids_drawn w + length entries
       ∧ clientManager (post_elements_batch (VObj fields) w).1
         = SingleRoomClientManager.broadcast (elements_batch_created created)
             None (clientManager w)).
Proof.
  intros Hel.
  assert (Forall valid_entry entries →
          ∃ created,
            (post_elements_batch (VObj fields) w).2
            = json_elements created (length entries)
            ∧ length created = length entries
            ∧ ids_drawn (post_elements_batch (VObj fields) w).1
              = ids_drawn w + length entries
            ∧ clientManager (post_elements_batch (VObj fields) w).1
              = SingleRoomClientManager.broadcast
                  (elements_batch_created created) None (clientManager w))
    as Hvalid.
  { intros Hall.
    destruct (batch_forEach_succeeds entries [] w Hall) as [[created Hs] Hi].
    pose proof (batch_forEach_clients entries [] w) as Hcl.
    unfold post_elements_batch. simpl. rewrite Hel. simpl.
    destruct (batch_forEach entries [] w) as [w' r] eqn:Hloop.
    simpl in Hs, Hi, Hcl. subst r.
    apply batch_forEach_spec in Hloop as (pairs & -> & _ & Hpairs).
    apply Forall2_length in Hpairs. simpl.
    exists pairs.*2. rewrite length_fmap, <- Hpairs, Hcl. done. }
  split; [|exact Hvalid]. split.
  - intros Hok. apply Forall_forall. intros e He.
    destruct (Zod.parse_object CreateElementSchema e) as [p|] eqn:Hp;
      [by eexists|].
    exfalso.
    destruct (batch_invalid_entry_rejected fields entries w Hel) as [Hr _].
    { apply Exists_exists. eauto. }
    by rewrite Hr in Hok.
  - intros Hall. destruct (Hvalid Hall) as (created & -> & _). done.
Qed.

(** X16: the diagram relay never touches the store; it is accepted
    exactly when [mermaidDiagram] is a non-empty string, and then
    broadcasts the diagram, with the configuration or [{}] in its place,
    and answers with the same two. *)
Theorem mermaid_relay body w :
  stateManager (post_elements_from_mermaid body w).1 = stateManager w
  ∧ (status_of (post_elements_from_mermaid body w).2 = 200
     ↔ nullish body = false
       ∧ ∃ s, s ≠ "" ∧ prop body "mermaidDiagram" = VStr s)
  ∧ (status_of (post_elements_from_mermaid body w).2 = 200 →
     (post_elements_from_mermaid body w).2
     = json_mermaid (prop body "mermaidDiagram")
         (or_else (prop body "config") (VObj ∅))
     ∧ clientManager (post_elements_from_mermaid body w).1
       = SingleRoomClientManager.broadcast
           (mermaid_convert (prop body "mermaidDiagram")
              (or_else (prop body "config") (VObj ∅))
              (toISOString_nth (clock_reads w)))
           None (clientManager w)).
Proof.
  unfold post_elements_from_mermaid. destruct (nullish body).
  { split; [done|]. split; [|done]. split; [done|]. by intros [? _]. }
  destruct (prop body "mermaidDiagram") as [| |b|n|s|l|m];
    try (split; [done|]; split; [|done]; split; [done|];
         by intros [_ (s' & _ & [=])]).
  simpl. destruct (String.eqb_spec s "") as [->|Hne]; simpl.
  - split; [done|]. split; [|done]. split; [done|].
    by intros [_ (s & Hs & [= <-])].
  - split; [done|]. split; [|done]. split; [|done]. intros _. eauto.
Qed.

Lemma send_to_absent h data (clients : list WebSocket) :
  h ∉ handles clients → send_to h data clients = clients.
Proof.
  unfold send_to, handles. induction clients as [|c cs IH]; [done|].
  rewrite !fmap_cons, not_elem_of_cons. intros [Hne Hnin].
  rewrite bool_decide_eq_false_2 by done. by rewrite IH.
Qed.

Lemma send_to_last h data (clients : list WebSocket) ws :
  h ∉ handles clients →
  SingleRoomClientManager.handle ws = h →
  send_to h data (clients ++ [ws])
  = clients ++ [SingleRoomClientManager.send data ws].
Proof.
  intros Hnin Hws. unfold send_to. rewrite fmap_app.
  fold (send_to h data clients). rewrite send_to_absent by done.
  simpl. by rewrite bool_decide_eq_true_2.
Qed.

(** X17: a connection that was not registered is appended to the
    registry, open, and is sent the whole store as [initial_elements] and
    then its size as [sync_status]; nobody else is sent anything, and the
    store is untouched. *)
Theorem connection_sends_the_snapshot h w :
  h ∉ handles (clientManager w) →
  clientManager (on_connection h w)
  = clientManager w
    ++ [ {| SingleRoomClientManager.handle := h;
            SingleRoomClientManager.readyState := 1;
            SingleRoomClientManager.sent :=
              [ initial_elements (JSMap.values (stateManager w));
                sync_status (JSMap.size (stateManager w))
                  (toISOString_nth (clock_reads w)) ] |} ]
  ∧ stateManager (on_connection h w) = stateManager w.
Proof.
  intros Hnin. split; [|done]. unfold on_connection. simpl.
  unfold SingleRoomClientManager.addClient.
  assert (existsb (SingleRoomClientManager.same_socket
                     {| SingleRoomClientManager.handle := h;
                        SingleRoomClientManager.readyState := 1;
                        SingleRoomClientManager.sent := [] |})
            (clientManager w) = false) as ->.
  { destruct (existsb _ _) eqn:E; [|done].
    by apply existsb_same_socket in E. }
  rewrite !send_to_last by done. reflexivity.
Qed.

End HandlerFacts.

Section UpdateFrame.
Context `{External}.
Import Zod.

Lemma update_params_in_schema input updates k :
  parse_object UpdateElementSchema input = Some updates →
  is_Some (updates !! k) → k ∈ creation_fields.
Proof.
  intros Hparse [r Hr].
  rewrite (parse_object_lookup _ _ _ k Hparse) in Hr.
  destruct (shape_lookup _ k) as [sk|] eqn:Hsk; [|done].
  by apply shape_lookup_keys in Hsk.
Qed.

(** X18: an accepted update rewrites one record and nothing else: the
    store keeps its keys, in order, and the record of every other key; the
    new record of the identifier is the one answered and broadcast as
    [element_updated]; it carries the time of the update, and outside the
    fields of the schema, [updatedAt] and [version] it is the old record,
    so that no body changes [createdAt]. *)
Theorem update_rewrites_one_record id body w :
  status_of (put_elements_id id body w).2 = 200 →
  JSMap.keys (stateManager (put_elements_id id body w).1)
  = JSMap.keys (stateManager w)
  ∧ (∀ k, same_value_zero (VStr id) k = false →
       SingleRoomStateManager.getElement k
         (stateManager (put_elements_id id body w).1)
       = SingleRoomStateManager.getElement k (stateManager w))
  ∧ ∃ old new,
      SingleRoomStateManager.getElement (VStr id) (stateManager w) = Some old
      ∧ SingleRoomStateManager.getElement (VStr id)
          (stateManager (put_elements_id id body w).1) = Some new
      ∧ (put_elements_id id body w).2 = json_element new
      ∧ clientManager (put_elements_id id body w).1
        = SingleRoomClientManager.broadcast (element_updated new) None
            (clientManager w)
      ∧ new !! "updatedAt" = Some (VStr (toISOString_nth (clock_reads w)))
      ∧ new !! "createdAt" = old !! "createdAt"
      ∧ ∀ k, k ∉ creation_fields → k ≠ "updatedAt" → k ≠ "version" →
             new !! k = old !! k.
Proof.
  intros (updates & existing & Hparse & Hget & Hresp & Hstore & Hcl)
           %put_elements_id_inv.
  assert (∀ k, k ∉ creation_fields → k ≠ "updatedAt" → k ≠ "version" →
               updated_element existing updates
                 (toISOString_nth (clock_reads w)) !! k = existing !! k)
    as Hframe.
  { intros k Hk Hu Hv. rewrite updated_element_lookup by done.
    destruct (updates !! k) eqn:Hup; [|done].
    destruct Hk. eapply update_params_in_schema; eauto. }
  split; [|split].
  - rewrite Hstore, keys_set.
    unfold SingleRoomStateManager.getElement in Hget. by rewrite Hget.
  - intros k Hk. rewrite Hstore. unfold SingleRoomStateManager.getElement.
    apply get_set_ne; [done|by rewrite same_value_zero_sym].
  - exists existing, (updated_element existing updates
                        (toISOString_nth (clock_reads w))).
    split; [done|]. split; [rewrite Hstore; by apply get_set_eq|].
    split; [done|]. split; [done|]. split; [|split; [|exact Hframe]].
    + unfold updated_element.
      by rewrite lookup_insert_ne, lookup_insert_eq.
    + apply Hframe; [|done|done]. unfold creation_fields.
      rewrite !elem_of_cons, elem_of_nil. intuition discriminate.
Qed.

End UpdateFrame.

Lemma rejected_request_changes_nothing_witness :
  status_of (handle (H:=sample_external) (POST_elements (VObj ∅)) initial).2
  ≠ 200
  ∧ (handle (H:=sample_external) (POST_elements (VObj ∅)) initial).1 = initial.
Proof.
  assert (status_of
            (handle (H:=sample_external) (POST_elements (VObj ∅)) initial).2
          ≠ 200) as Hrejected.
  { vm_compute. discriminate. }
  split; [exact Hrejected|].
  apply (rejected_request_changes_nothing (H:=sample_external)
           (POST_elements (VObj ∅)) initial Hrejected).
  reflexivity.
Defined.

Lemma delete_removes_the_record_witness :
  let w := (post_elements (H:=sample_external) a_rectangle_named_r1 initial).1 in
  SingleRoomStateManager.getElement (VStr "r1")
    (stateManager (delete_elements_id "r1" w).1) = None.
Proof.
  intros w.
  apply (delete_removes_the_record (H:=sample_external) "r1" w).
  - exact (reachable_step (H:=sample_external)
             (request (POST_elements a_rectangle_named_r1)) initial
             (reachable_initial (H:=sample_external))).
  - vm_compute. reflexivity.
Defined.

Lemma create_stores_under_its_key_witness :
  ∃ element,
    (post_elements (H:=sample_external) a_rectangle_named_r1 initial).2
    = json_element element
    ∧ SingleRoomStateManager.getElement
        (VStr (creation_key (H:=sample_external) a_rectangle_named_r1 initial))
        (stateManager
           (post_elements (H:=sample_external) a_rectangle_named_r1 initial).1)
      = Some element
    ∧ element !! "id"
      = Some (default
                (VStr (creation_key (H:=sample_external) a_rectangle_named_r1
                         initial))
                (own_props a_rectangle_named_r1 !! "id"))
    ∧ ids_drawn
        (post_elements (H:=sample_external) a_rectangle_named_r1 initial).1
      = (if supplies_id a_rectangle_named_r1 then ids_drawn initial
         else S (ids_drawn initial)).
Proof.
  apply (create_stores_under_its_key (H:=sample_external) a_rectangle_named_r1 initial).
  vm_compute. reflexivity.
Defined.

Lemma created_element_is_valid_witness :
  ∃ element t x y,
    (post_elements (H:=sample_external) a_rectangle initial).2
    = json_element element
    ∧ t ∈ EXCALIDRAW_ELEMENT_TYPES (External:=sample_external)
    ∧ own_props a_rectangle !! "type" = Some (VStr t)
    ∧ own_props a_rectangle !! "x" = Some (VNum x)
    ∧ own_props a_rectangle !! "y" = Some (VNum y)
    ∧ element !! "type" = Some (VStr t)
    ∧ element !! "x" = Some (VNum x)
    ∧ element !! "y" = Some (VNum y).
Proof.
  apply (created_element_is_valid (H:=sample_external) a_rectangle initial).
  vm_compute. reflexivity.
Defined.

Lemma sync_skips_null_entries_witness :
  JSMap.size
    (stateManager
       (post_elements_sync (H:=sample_external) (VObj a_sync_with_a_null)
          initial).1)
  ≤ 1.
Proof.
  destruct (sync_skips_null_entries (H:=sample_external) a_sync_with_a_null
              [ VNull;
                VObj {[ "id" := VStr "a"; "type" := VStr "ellipse";
                        "x" := VNum 0; "y" := VNum 0 ]};
                VNull ] initial eq_refl)
    as (broadcastAt & syncedAt & _ & Hsize & _).
  exact Hsize.
Defined.

Lemma batch_accepts_iff_all_valid_witness :
  status_of
    (post_elements_batch (H:=sample_external) (VObj a_batch_of_one) initial).2
  = 200
  ↔ Forall (valid_entry (H:=sample_external)) [ a_rectangle_named_r1 ].
Proof.
  apply (batch_accepts_iff_all_valid (H:=sample_external) a_batch_of_one
           [ a_rectangle_named_r1 ] initial).
  reflexivity.
Defined.

Lemma connection_sends_the_snapshot_witness :
  clientManager (on_connection (H:=sample_external) 0 initial)
  = [ {| SingleRoomClientManager.handle := 0;
         SingleRoomClientManager.readyState := 1;
         SingleRoomClientManager.sent :=
           [ initial_elements [];
             sync_status 0 (toISOString_nth (External:=sample_external) 0) ] |} ].
Proof.
  apply (connection_sends_the_snapshot (H:=sample_external) 0 initial).
  apply not_elem_of_nil.
Defined.

Lemma update_rewrites_one_record_witness :
  let w := (post_elements (H:=sample_external) a_rectangle initial).1 in
  JSMap.keys
    (stateManager (put_elements_id (H:=sample_external) "id-0" an_update_of_x w).1)
  = JSMap.keys (stateManager w).
Proof.
  intros w.
  apply (update_rewrites_one_record (H:=sample_external) "id-0"
           an_update_of_x w).
  vm_compute. reflexivity.
Defined.

(** ** The reconciler: cleaning and binding sanitation *)

Section Cleaning.
Import Client.

Lemma clean_lookup (element : obj) k :
  cleanElementForExcalidraw element !! k
  = if decide (k ∈ provenance_fields) then None else element !! k.
Proof.
  unfold cleanElementForExcalidraw. case_decide as Hin.
  - unfold provenance_fields in Hin.
    repeat (apply elem_of_cons in Hin as [->|Hin];
            [rewrite !lookup_delete; by repeat case_decide|]).
    by apply elem_of_nil in Hin.
  - rewrite !lookup_delete_ne; [done|..];
      intros <-; apply Hin; unfold provenance_fields;
      rewrite !elem_of_cons; tauto.
Qed.

(** X19: [cleanElementForExcalidraw] removes the six server-only fields
    and keeps every other field as it is; cleaning twice is cleaning
    once. *)
Theorem clean_strips_provenance (element : obj) :
  (∀ k, k ∈ provenance_fields → cleanElementForExcalidraw element !! k = None)
  ∧ (∀ k, k ∉ provenance_fields →
       cleanElementForExcalidraw element !! k = element !! k)
  ∧ cleanElementForExcalidraw (cleanElementForExcalidraw element)
    = cleanElementForExcalidraw element.
Proof.
  split; [|split].
  - intros k Hk. by rewrite clean_lookup, decide_True.
  - intros k Hk. by rewrite clean_lookup, decide_False.
  - apply map_eq. intros k. rewrite !clean_lookup. by case_decide.
Qed.

End Cleaning.

Section Bindings.
Import Client.

Lemma in_batch_ids (batch : list obj) k :
  in_batch batch k
  ↔ Exists (λ i, same_value_zero i k = true) (ids_of batch).
Proof. unfold in_batch, ids_of. by rewrite Exists_fmap. Qed.

Lemma sanitized_id batch (before after : obj) :
  sanitized batch before after →
  prop (VObj after) "id" = prop (VObj before) "id".
Proof. intros (_ & _ & Hframe). simpl. by rewrite Hframe. Qed.

Lemma ids_of_validateAndFixBindings (batch : list obj) :
  ids_of (validateAndFixBindings batch) = ids_of batch.
Proof.
  pose proof (validateAndFixBindings_sanitized batch) as Hall.
  unfold ids_of. induction Hall as [|b a bs as' Hs _ IH]; [done|].
  rewrite !fmap_cons, IH. f_equal. by apply (sanitized_id batch).
Qed.

Lemma in_batch_validateAndFixBindings (batch : list obj) k :
  in_batch (validateAndFixBindings batch) k ↔ in_batch batch k.
Proof. by rewrite !in_batch_ids, ids_of_validateAndFixBindings. Qed.

Lemma Forall_filter_holds {A} (P : A → Prop) `{!∀ x, Decision (P x)}
    (l : list A) :
  Forall P (filter P l).
Proof.
  apply Forall_forall. intros x Hx. by apply list_elem_of_filter in Hx as [? _].
Qed.

Lemma sanitized_no_dangling batch (before after : obj) :
  sanitized batch before after → no_dangling batch after.
Proof.
  intros (Hbound & Hcont & _). split.
  - intros c Hc Htruthy.
    destruct (before !! "containerId") as [c0|]; [|congruence].
    rewrite Hc in Hcont. injection Hcont as ->.
    destruct (truthy c0) eqn:Hc0; [|congruence].
    by destruct (decide (in_batch batch c0)).
  - intros v Hv Htruthy.
    destruct (before !! "boundElements") as [b0|]; [|congruence].
    assert (∀ other, after !! "boundElements"
                     = Some (if truthy other then VNull else other) → False)
      as Hother.
    { intros other Ho. rewrite Hv in Ho. injection Ho as ->.
      destruct (truthy other) eqn:E; [done|congruence]. }
    destruct b0 as [| |b|n|s|bindings|m];
      try (match type of Hbound with
           | _ = Some (if truthy ?o then _ else _) =>
               by destruct (Hother o Hbound)
           end).
    rewrite Hv in Hbound. injection Hbound as ->.
    pose proof (Forall_filter_holds (valid_binding batch) bindings) as Hvalid.
    destruct (filter (valid_binding batch) bindings) as [|b0 kept]; [done|].
    eauto.
Qed.

Lemma valid_binding_ext batch1 batch2 binding :
  (∀ k, in_batch batch1 k ↔ in_batch batch2 k) →
  valid_binding batch1 binding → valid_binding batch2 binding.
Proof.
  intros Hext (? & ? & ? & ? & ?). repeat split; try done. by apply Hext.
Qed.

(** X20: what [validateAndFixBindings] returns has no dangling
    reference: it has one element per element given, with the same
    identifiers; every truthy [containerId] in it is the identifier of
    one of its elements, and every truthy [boundElements] in it is a
    non-empty array of objects with a truthy [id] that one of its
    elements carries and with type ["text"] or ["arrow"]. *)
Theorem validateAndFixBindings_closes_references (elements : list obj) :
  length (validateAndFixBindings elements) = length elements
  ∧ ids_of (validateAndFixBindings elements) = ids_of elements
  ∧ Forall (no_dangling (validateAndFixBindings elements))
      (validateAndFixBindings elements).
Proof.
  pose proof (validateAndFixBindings_sanitized elements) as Hall.
  split; [symmetry; by eapply Forall2_length|].
  split; [apply ids_of_validateAndFixBindings|].
  apply Forall_forall. intros after Hafter.
  apply list_elem_of_lookup in Hafter as [i Hi].
  destruct (Forall2_lookup_r _ _ _ _ _ Hall Hi) as (before & _ & Hs).
  apply sanitized_no_dangling in Hs as [Hc Hb]. split.
  - intros c ? ?. apply in_batch_validateAndFixBindings. by apply Hc.
  - intros v Hv Ht. destruct (Hb v Hv Ht) as (bs & -> & Hne & Hvalid).
    exists bs. split; [done|]. split; [done|].
    eapply Forall_impl; [exact Hvalid|]. intros b.
    apply valid_binding_ext. intros k.
    by rewrite in_batch_validateAndFixBindings.
Qed.

End Bindings.

Section Idempotence.
Import Client.

Lemma sanitized_twice batch (e1 e2 e3 : obj) :
  sanitized batch e1 e2 → sanitized batch e2 e3 → e3 = e2.
Proof.
  intros (Hb1 & Hc1 & Hf1) (Hb2 & Hc2 & Hf2). apply map_eq. intros k.
  destruct (decide (k = "boundElements")) as [->|Hkb].
  - destruct (e1 !! "boundElements") as [[| |b|n|s|bindings|m]|].
    all: rewrite Hb1 in Hb2; try (by rewrite Hb1, Hb2).
    all: try (cbn [truthy] in Hb1, Hb2 |- *).
    + destruct b; by rewrite Hb1, Hb2.
    + destruct (negb _) eqn:E; rewrite Hb1, Hb2; [done|]. cbn [truthy].
      by rewrite E.
    + destruct (negb _) eqn:E; rewrite Hb1, Hb2; [done|]. cbn [truthy].
      by rewrite E.
    + rewrite Hb1.
      destruct (filter (valid_binding batch) bindings) as [|b0 kept] eqn:Hk.
      * done.
      * rewrite Hb2, <- Hk.
        rewrite list_filter_filter.
        assert (filter (λ a, valid_binding batch a ∧ valid_binding batch a)
                  bindings = filter (valid_binding batch) bindings) as ->.
        { apply list_filter_iff. tauto. }
        by rewrite Hk.
  - destruct (decide (k = "containerId")) as [->|Hkc].
    + destruct (e1 !! "containerId") as [c|]; rewrite Hc1 in Hc2;
        [|by rewrite Hc1, Hc2].
      rewrite Hc1. destruct (truthy c) eqn:Ht.
      * destruct (decide (in_batch batch c)) as [Hin|Hin].
        -- by rewrite Hc2, Ht, decide_True.
        -- done.
      * by rewrite Hc2, Ht.
    + by rewrite Hf2.
Qed.

Lemma sanitized_twice_all batch (l1 l2 l3 : list obj) :
  Forall2 (sanitized batch) l1 l2 → Forall2 (sanitized batch) l2 l3 → l3 = l2.
Proof.
  intros H1. revert l3.
  induction H1 as [|e1 e2 es1 es2 Hs _ IH]; intros l3 H2.
  - by apply Forall2_nil_inv_l in H2.
  - apply Forall2_cons_inv_l in H2 as (e3 & es3 & Hs' & Hrest & ->).
    f_equal; [exact (sanitized_twice batch e1 e2 e3 Hs Hs')|by apply IH].
Qed.

(** X21: applying [validateAndFixBindings] to its own result changes
    nothing. *)
Theorem validateAndFixBindings_idempotent (elements : list obj) :
  validateAndFixBindings (validateAndFixBindings elements)
  = validateAndFixBindings elements.
Proof.
  pose proof (validateAndFixBindings_sanitized elements) as H1.
  pose proof (validateAndFixBindings_sanitized
                (validateAndFixBindings elements)) as H2.
  remember (validateAndFixBindings (validateAndFixBindings elements)) as third.
  remember (validateAndFixBindings elements) as second.
  assert (Forall2 (sanitized elements) second third) as H2'.
  { eapply Forall2_impl; [exact H2|]. intros e2 e3 (Hb & Hc & Hf).
    assert (∀ k, in_batch second k ↔ in_batch elements k) as Hext.
    { intros k. subst second. apply in_batch_validateAndFixBindings. }
    assert (∀ bindings : list value,
              filter (valid_binding second) bindings
              = filter (valid_binding elements) bindings) as Hfilter.
    { intros bindings. apply list_filter_iff. intros b.
      split; apply valid_binding_ext; intros k; by rewrite Hext. }
    split; [|split; [|done]].
    - destruct (e2 !! "boundElements") as [[]|]; try done.
      by rewrite <- Hfilter.
    - destruct (e2 !! "containerId") as [c|]; [|done].
      rewrite Hc. destruct (truthy c); [|done].
      destruct (decide (in_batch second c)) as [Hin|Hin],
               (decide (in_batch elements c)) as [Hin'|Hin']; try done.
      + by apply Hext in Hin.
      + by apply Hext in Hin'. }
  exact (sanitized_twice_all elements elements second third H1 H2').
Qed.

End Idempotence.

(** ** The reconciler: one message at a time *)

Section Messages.
Context `{External}.
Import Client.

(** X22: a message whose type is none of the six the reconciler acts on
    leaves the scene as it is, whatever else it carries. *)
Theorem other_messages_keep_the_scene (data : WebSocketMessage)
    (scene : list value) :
  type data ∉ scene_changing_types →
  handleWebSocketMessage data scene = scene.
Proof.
  unfold scene_changing_types. rewrite !elem_of_cons, elem_of_nil. intros Hno.
  unfold handleWebSocketMessage.
  repeat match goal with
         | |- context [String.eqb (type data) ?t] =>
             destruct (String.eqb_spec (type data) t) as [Heq|_];
             [try reflexivity; exfalso; apply Hno; rewrite Heq; tauto|]
         end.
  reflexivity.
Qed.

(** X23: an [element_created] or [elements_batch_created] message only
    appends: the scene stays a prefix of the result, and what is appended
    does not depend on the scene. *)
Theorem creation_messages_append (data : WebSocketMessage) :
  type data = "element_created" ∨ type data = "elements_batch_created" →
  ∃ added, ∀ scene, handleWebSocketMessage data scene = scene ++ added.
Proof.
  intros [Ht|Ht]; unfold handleWebSocketMessage; rewrite Ht; cbn [String.eqb Ascii.eqb Bool.eqb].
  - destruct (element data) as [el|].
    + eexists. intros scene. reflexivity.
    + exists []. intros scene. by rewrite app_nil_r.
  - destruct (elements data) as [els|].
    + eexists. intros scene. reflexivity.
    + exists []. intros scene. by rewrite app_nil_r.
Qed.

Lemma updated_scene (data : WebSocketMessage) (el : obj) scene :
  type data = "element_updated" → element data = Some el →
  handleWebSocketMessage data scene
  = if existsb nullish scene then scene
    else (λ e, if same_value_zero (prop e "id") (prop (VObj el) "id")
               then default VUndef
                      (head (VObj <$> convertToExcalidrawElements true
                                        [cleanElementForExcalidraw el]))
               else e) <$> scene.
Proof.
  intros Ht Hel. unfold handleWebSocketMessage. rewrite Ht, Hel. reflexivity.
Qed.

(** X24: an [element_updated] message keeps the number of elements of the
    scene and every element whose [id] is not the one of the message, in
    place; on a scene where no element has that [id] it changes
    nothing. *)
Theorem update_message_keeps_the_others (data : WebSocketMessage) (el : obj)
    (scene : list value) :
  type data = "element_updated" → element data = Some el →
  length (handleWebSocketMessage data scene) = length scene
  ∧ Forall2 (λ before after,
               same_value_zero (prop before "id") (prop (VObj el) "id") = false
               → after = before)
      scene (handleWebSocketMessage data scene)
  ∧ (Forall (λ e, same_value_zero (prop e "id") (prop (VObj el) "id") = false)
       scene →
     handleWebSocketMessage data scene = scene).
Proof.
  intros Ht Hel. rewrite (updated_scene data el scene Ht Hel).
  destruct (existsb nullish scene).
  - split; [done|]. split; [|done]. by apply Forall_Forall2_diag, Forall_true.
  - split; [by rewrite length_fmap|]. split.
    + apply Forall2_fmap_r, Forall_Forall2_diag, Forall_forall.
      by intros e _ ->.
    + intros Hall. induction Hall as [|e es He _ IH]; [done|].
      by rewrite fmap_cons, He, IH.
Qed.

Lemma deleted_scene (data : WebSocketMessage) id scene :
  type data = "element_deleted" → elementId data = Some id →
  handleWebSocketMessage data scene
  = if negb (truthy (VStr id)) then scene
    else if existsb nullish scene then scene
    else filter (λ e, same_value_zero (prop e "id") (VStr id) = false) scene.
Proof.
  intros Ht Hid. unfold handleWebSocketMessage. rewrite Ht, Hid. reflexivity.
Qed.

Lemma existsb_filter_false {A} (f : A → bool) (P : A → Prop)
    `{!∀ x, Decision (P x)} (l : list A) :
  existsb f l = false → existsb f (filter P l) = false.
Proof.
  induction l as [|x l IH]; [done|]. simpl.
  intros [Hx Hl]%orb_false_elim. rewrite filter_cons.
  case_decide; simpl; [rewrite Hx|]; by apply IH.
Qed.

(** X25: an [element_deleted] message only takes elements away, and
    handling it a second time changes nothing more; when the identifier
    is not empty and the scene holds no [null], no element with that
    [id] is left and every element with another [id] stays. *)
Theorem delete_message_removes_the_id (data : WebSocketMessage) (id : string)
    (scene : list value) :
  type data = "element_deleted" → elementId data = Some id →
  sublist (handleWebSocketMessage data scene) scene
  ∧ handleWebSocketMessage data (handleWebSocketMessage data scene)
    = handleWebSocketMessage data scene
  ∧ (id ≠ "" → existsb nullish scene = false →
     ∀ e, e ∈ handleWebSocketMessage data scene
          ↔ e ∈ scene ∧ same_value_zero (prop e "id") (VStr id) = false).
Proof.
  intros Ht Hid. rewrite !(deleted_scene data id _ Ht Hid).
  destruct (negb (truthy (VStr id))) eqn:Hempty.
  - split; [done|]. split; [done|]. intros Hne. simpl in Hempty.
    apply negb_true_iff, negb_false_iff, String.eqb_eq in Hempty. done.
  - destruct (existsb nullish scene) eqn:Hnull.
    + rewrite Hnull. split; [done|]. split; [done|]. done.
    + rewrite existsb_filter_false by done.
      split; [apply sublist_filter|]. split.
      * rewrite list_filter_filter. apply list_filter_iff. tauto.
      * intros _ _ e. rewrite list_elem_of_filter. tauto.
Qed.

End Messages.

Lemma update_message_keeps_the_others_witness :
  Client.handleWebSocketMessage (H := sample_external)
    (an_update {[ "id" := VStr "zz" ]}) a_scene = a_scene.
Proof.
  apply (update_message_keeps_the_others (H := sample_external)
           (an_update {[ "id" := VStr "zz" ]}) {[ "id" := VStr "zz" ]} a_scene
           eq_refl eq_refl).
  unfold a_scene. repeat constructor.
Defined.

Lemma delete_message_removes_the_id_witness :
  VObj {[ "id" := VStr "a"; "type" := VStr "ellipse" ]}
  ∈ Client.handleWebSocketMessage (H := sample_external) (a_deletion "b") a_scene.
Proof.
  apply (delete_message_removes_the_id (H := sample_external)
           (a_deletion "b") "b" a_scene eq_refl eq_refl).
  - done.
  - reflexivity.
  - split; [|reflexivity]. unfold a_scene. rewrite !elem_of_cons. auto.
Defined.

Lemma other_messages_keep_the_scene_witness :
  Client.handleWebSocketMessage (H := sample_external)
    (message "sync_status" None None) a_scene = a_scene.
Proof.
  apply (other_messages_keep_the_scene (H := sample_external)).
  unfold scene_changing_types. rewrite !elem_of_cons, elem_of_nil.
  cbn [message Client.type]. intuition discriminate.
Defined.

Lemma creation_messages_append_witness :
  ∃ added, ∀ scene,
    Client.handleWebSocketMessage (H := sample_external)
      (message "element_created" (Some {[ "id" := VStr "n" ]}) None) scene
    = scene ++ added.
Proof.
  apply (creation_messages_append (H := sample_external)).
  left. reflexivity.
Defined.

(** ** Sync and reload *)

Section RoundTrip.
Context `{External}.
Import Client.






End RoundTrip.


(** ** The socket address *)

Section Urls.
Import ClientUrl.

(** X27: the socket address is the base address with [http:] turned into
    [ws:] and [https:] into [wss:], followed by the room path; a base
    address with neither scheme is used as it is, whatever it starts
    with. *)
Theorem wsUrl_scheme (rest : string) (roomId : option string) :
  wsUrl ("http:" +:+ rest) roomId = "ws:" +:+ rest +:+ roomIdPath roomId
  ∧ wsUrl ("https:" +:+ rest) roomId = "wss:" +:+ rest +:+ roomIdPath roomId
  ∧ ∀ base, startsWith base "http:" = false →
            startsWith base "https:" = false →
            wsUrl base roomId = base +:+ roomIdPath roomId.
Proof.
  split; [reflexivity|]. split; [reflexivity|].
  intros base Hhttp Hhttps. unfold wsUrl, replace_scheme.
  unfold startsWith in Hhttp, Hhttps.
  apply bool_decide_eq_false in Hhttp, Hhttps.
  destruct (after_prefix "https:" base); [by destruct Hhttps|].
  destruct (after_prefix "http:" base); [by destruct Hhttp|]. done.
Qed.

End Urls.
